(** * markdownify.js: a shallow embedding of the HTML-to-Markdown walker

    The development follows [src/markdownify.js].  JavaScript strings are
    modelled as [string]: a character is a code unit below 256, which covers
    every character the converter itself inspects (white space, line
    terminators, Markdown punctuation, digits).  DOM nodes are a tree, and the
    parent and sibling links of the DOM are recovered from a zipper-like
    [context] that the walker threads through the recursion.  Exceptions of
    the JavaScript run time ([RangeError], [TypeError]) are values of an error
    monad. *)

From Stdlib Require Import Bool Arith ZArith Lia List.
From Stdlib Require Import Ascii String DecimalString.
Import ListNotations.

Set Warnings "-register-all".

Local Open Scope bool_scope.
Local Open Scope list_scope.
Local Open Scope string_scope.

(* ================================================================== *)
(** ** Characters and the string primitives of the run time *)
(* ================================================================== *)

Module Js.

Definition TAB : ascii := "009"%char.
Definition LF : ascii := "010"%char.
Definition VT : ascii := "011"%char.
Definition FF : ascii := "012"%char.
Definition CR : ascii := "013"%char.
Definition SP : ascii := " "%char.
Definition NBSP : ascii := "160"%char.
Definition DQUOTE : ascii := "034"%char.
Definition BSLASH : ascii := "\"%char.

(** The string made of one line feed. *)
Definition nl : string := String LF EmptyString.

Definition isLF (c : ascii) : bool := Ascii.eqb c LF.

(** [\s] of regular expressions and the white space of [trim]; the members
    below code unit 256. *)
Definition isSpace (c : ascii) : bool :=
  Ascii.eqb c TAB || Ascii.eqb c LF || Ascii.eqb c VT || Ascii.eqb c FF
  || Ascii.eqb c CR || Ascii.eqb c SP || Ascii.eqb c NBSP.

(** The class [[\t \r\n]] of [allWhitespaceRe] and [newlineWhitespaceRe]. *)
Definition isWs4 (c : ascii) : bool :=
  Ascii.eqb c TAB || Ascii.eqb c SP || Ascii.eqb c CR || Ascii.eqb c LF.

(** The class [[\t ]] of [whitespaceRe]. *)
Definition isBlank (c : ascii) : bool := Ascii.eqb c TAB || Ascii.eqb c SP.

(** The class [[\r\n]]; also the line terminators that [.] refuses and at
    which [^] and [$] match under the [m] flag.  The two others, U+2028 and
    U+2029, are no code units below 256: a string of the model holds none. *)
Definition isLineTerminator (c : ascii) : bool := Ascii.eqb c CR || Ascii.eqb c LF.

Definition isDigit (c : ascii) : bool :=
  let n := nat_of_ascii c in (48 <=? n)%nat && (n <=? 57)%nat.

(** Truthiness of a string: the empty string is the only falsy one. *)
Definition truthy (s : string) : bool :=
  match s with EmptyString => false | String _ _ => true end.

Fixpoint all_in (p : ascii -> bool) (s : string) : bool :=
  match s with
  | EmptyString => true
  | String c r => p c && all_in p r
  end.

(** [s.replace(/^[p]+/, '')]: the match can only start at index 0 and is
    greedy. *)
Fixpoint stripStart (p : ascii -> bool) (s : string) : string :=
  match s with
  | EmptyString => EmptyString
  | String c r => if p c then stripStart p r else s
  end.

(** [s.replace(/[p]+$/, '')] (no [m] flag: [$] is the end of the string).
    The leftmost index from which a non-empty run of [p] reaches the end of
    the string is where the match starts. *)
Fixpoint stripEnd (p : ascii -> bool) (s : string) : string :=
  match s with
  | EmptyString => EmptyString
  | String c r => if p c && all_in p r then EmptyString else String c (stripEnd p r)
  end.

Definition trimStart (s : string) : string := stripStart isSpace s.
Definition trimEnd (s : string) : string := stripEnd isSpace s.
Definition trim (s : string) : string := trimEnd (trimStart s).

(** [s.repeat(n)] for a count that is already a non-negative integer. *)
Fixpoint repeat_string (s : string) (n : nat) : string :=
  match n with
  | O => EmptyString
  | S k => s ++ repeat_string s k
  end.

Definition startsWith (s : string) (c : ascii) : bool :=
  match s with String d _ => Ascii.eqb d c | EmptyString => false end.

Fixpoint endsWith (s : string) (c : ascii) : bool :=
  match s with
  | EmptyString => false
  | String d EmptyString => Ascii.eqb d c
  | String _ r => endsWith r c
  end.

(** [s.slice(n)] for [0 <= n]. *)
Fixpoint slice (n : nat) (s : string) : string :=
  match n, s with
  | O, _ => s
  | S k, EmptyString => EmptyString
  | S k, String _ r => slice k r
  end.

(** [s.replace(/c/g, by)] for a single character [c]. *)
Fixpoint replaceChar (c : ascii) (by_ : string) (s : string) : string :=
  match s with
  | EmptyString => EmptyString
  | String d r => (if Ascii.eqb d c then by_ else String d EmptyString) ++ replaceChar c by_ r
  end.

(** [s.replace(/[p]/g, f(match))] for a character class [p]. *)
Fixpoint replaceClass (p : ascii -> bool) (f : ascii -> string) (s : string) : string :=
  match s with
  | EmptyString => EmptyString
  | String d r => (if p d then f d else String d EmptyString) ++ replaceClass p f r
  end.

(** [s.replace(/\\_/g, "_")]: every backslash that an underscore follows is
    dropped. *)
Fixpoint unescapeUnderscore (s : string) : string :=
  match s with
  | EmptyString => EmptyString
  | String c r =>
      match r with
      | String d r' =>
          if Ascii.eqb c BSLASH && Ascii.eqb d "_"%char
          then String "_"%char (unescapeUnderscore r')
          else String c (unescapeUnderscore r)
      | EmptyString => s
      end
  end.

(** [s.replace(/[p]+/g, by)]: every maximal run of [p] becomes [by]. *)
Fixpoint collapseRuns (p : ascii -> bool) (by_ : string) (inRun : bool) (s : string) : string :=
  match s with
  | EmptyString => EmptyString
  | String c r =>
      if p c
      then (if inRun then EmptyString else by_) ++ collapseRuns p by_ true r
      else String c (collapseRuns p by_ false r)
  end.

(** Does the run of [[\t \r\n]] at the head of [s] hold a [\r] or [\n]? *)
Fixpoint runHasNewline (s : string) : bool :=
  match s with
  | EmptyString => false
  | String c r => isWs4 c && (isLineTerminator c || runHasNewline r)
  end.

(** [s.replace(newlineWhitespaceRe, "\n")], with
    [newlineWhitespaceRe = /[\t \r\n]*[\r\n][\t \r\n]*/g]: a maximal run of
    [[\t \r\n]] that holds a line terminator becomes one line feed; other
    runs stay.  [inMatch] says that the current run is being replaced. *)
Fixpoint collapseNewlineRuns (inMatch : bool) (s : string) : string :=
  match s with
  | EmptyString => EmptyString
  | String c r =>
      if isWs4 c then
        if inMatch then collapseNewlineRuns true r
        else if runHasNewline s then String LF (collapseNewlineRuns true r)
        else String c (collapseNewlineRuns false r)
      else String c (collapseNewlineRuns false r)
  end.

(** [s.split(c)] for a one-character separator. *)
Fixpoint split_aux (c : ascii) (cur : string) (s : string) : list string :=
  match s with
  | EmptyString => [cur]
  | String d r =>
      if Ascii.eqb d c then cur :: split_aux c EmptyString r
      else split_aux c (cur ++ String d EmptyString) r
  end.

Definition split (c : ascii) (s : string) : list string := split_aux c EmptyString s.

(** [l.join(sep)]. *)
Fixpoint join (sep : string) (l : list string) : string :=
  match l with
  | [] => EmptyString
  | [x] => x
  | x :: r => x ++ sep ++ join sep r
  end.

(** [s.replace(lineWithContentRe, (match, p1) => f(p1))], with
    [lineWithContentRe] matching a whole line under the flags [g] and [m]
    (its group is the line): every line, the empty ones included, is matched
    once and replaced by [f] of it; line terminators stay. *)
Fixpoint mapLines_aux (f : string -> string) (cur : string) (s : string) : string :=
  match s with
  | EmptyString => f cur
  | String c r =>
      if isLineTerminator c then f cur ++ String c (mapLines_aux f EmptyString r)
      else mapLines_aux f (cur ++ String c EmptyString) r
  end.

Definition mapLines (f : string -> string) (s : string) : string :=
  mapLines_aux f EmptyString s.

(** [s.toLowerCase()] on code units below 256. *)
Definition lowerChar (c : ascii) : ascii :=
  let n := nat_of_ascii c in
  if ((65 <=? n) && (n <=? 90) || (192 <=? n) && (n <=? 222) && negb (n =? 215))%nat
  then ascii_of_nat (n + 32) else c.

Fixpoint toLowerCase (s : string) : string :=
  match s with
  | EmptyString => EmptyString
  | String c r => String (lowerChar c) (toLowerCase r)
  end.

Definition includes (l : list string) (s : string) : bool :=
  existsb (String.eqb s) l.

(** *** Numbers *)

(** A JavaScript number that is an integer, or NaN.  [Num z] stands for the
    double of value [z], which it is exactly for [|z| < 2^53]; the
    statements on arithmetic keep to that range. *)
Inductive number : Type :=
| Num (z : Z)
| NaN.

Inductive exn : Type :=
| RangeError
| TypeError.

Inductive result (A : Type) : Type :=
| Ok (a : A)
| Throw (e : exn).

Arguments Ok {A} a.
Arguments Throw {A} e.

Definition bind {A B : Type} (c : result A) (k : A -> result B) : result B :=
  match c with
  | Ok a => k a
  | Throw e => Throw e
  end.

Fixpoint digitsValue (acc : Z) (s : string) : Z :=
  match s with
  | EmptyString => acc
  | String c r =>
      if isDigit c then digitsValue (10 * acc + Z.of_nat (nat_of_ascii c - 48)) r
      else acc
  end.

(** [parseInt(s, 10)]: leading white space is skipped, one sign is read, and
    the longest prefix of decimal digits is the value; no digit gives NaN.
    The value is exact here; the run time rounds it to a double, which
    changes it from 2^53 on. *)
Definition parseInt10 (s : string) : number :=
  let t := trimStart s in
  let '(neg, u) :=
    match t with
    | String "-"%char r => (true, r)
    | String "+"%char r => (false, r)
    | _ => (false, t)
    end in
  match u with
  | String c _ =>
      if isDigit c
      then Num (if neg then - digitsValue 0 u else digitsValue 0 u)
      else NaN
  | EmptyString => NaN
  end.

(** [Number.isNaN(v)] where [v] is a string: the function does not coerce its
    argument, and a string is not the number NaN. *)
Definition Number_isNaN_string (v : string) : bool := false.

(** [a + b] on numbers. *)
Definition add (a b : number) : number :=
  match a, b with
  | Num x, Num y => Num (x + y)
  | _, _ => NaN
  end.

(** [String(n)]. *)
Definition numberToString (n : number) : string :=
  match n with
  | Num z => NilZero.string_of_int (Z.to_int z)
  | NaN => "NaN"
  end.

(** The engine refuses a string longer than [maxStringLength] code units
    (the value is that of V8 on 64 bits): building one is a [RangeError].
    The model keeps this bound where the value of an attribute alone sets
    the length of a string, which is in the bars of a table cell and in the
    separator line under a head row; elsewhere a string of that length takes
    an input of that length. *)
Definition maxStringLength : Z := (2 ^ 29 - 24)%Z.

(** A string that has just been built by [+] or by [join]. *)
Definition built (s : string) : result string :=
  if (maxStringLength <? Z.of_nat (String.length s))%Z then Throw RangeError else Ok s.

(** [s.repeat(n)]: NaN counts as 0; a negative count is a [RangeError], and
    so is a result longer than the longest string. *)
Definition repeat (s : string) (n : number) : result string :=
  match n with
  | NaN => Ok EmptyString
  | Num z =>
      if (z <? 0)%Z then Throw RangeError
      else if (maxStringLength <? Z.of_nat (String.length s) * z)%Z then Throw RangeError
      else Ok (repeat_string s (Z.to_nat z))
  end.

(** [Array(n).fill(x)]: a length that is not an integer in [0, 2^32 - 1] is
    a [RangeError]. *)
Definition Array_fill (n : number) (x : string) : result (list string) :=
  match n with
  | NaN => Throw RangeError
  | Num z =>
      if ((z <? 0) || (2 ^ 32 <=? z))%Z then Throw RangeError
      else Ok (List.repeat x (Z.to_nat z))
  end.

End Js.

Notation "x <- c ;; k" := (Js.bind c (fun x => k))
  (at level 61, c at next level, right associativity).

(* ================================================================== *)
(** ** The DOM as the converter reads it *)
(* ================================================================== *)

Module Dom.

(** A node of the parsed document.  [Document] stands for a document or a
    document fragment: a node with children and without [tagName].  A
    [DocumentType] is met as a child of a document only; the walker is not
    started on one. *)
Inductive node : Type :=
| Element (tagName : string) (attributes : list (string * string)) (childNodes : list node)
| Text (nodeValue : string)
| Comment (nodeValue : string)
| DocumentType
| Document (childNodes : list node).

(** What a child knows of its parent besides its siblings. *)
Inductive parentKind : Type :=
| PElement (tagName : string) (attributes : list (string * string))
| PDocument.

(** One level of the path from a node up to the root: the parent, the
    siblings before the node (nearest first) and the siblings after it. *)
Record frame : Type := mkFrame {
  parent : parentKind;
  before : list node;
  after : list node
}.

(** The path from a node to the root, innermost frame first; the empty
    context belongs to a node without parent. *)
Definition context : Type := list frame.

Definition isElement (n : node) : bool :=
  match n with Element _ _ _ => true | _ => false end.

Definition childNodes (n : node) : list node :=
  match n with
  | Element _ _ cs | Document cs => cs
  | _ => []
  end.

(** [n.children]: the children that are elements. *)
Definition children (n : node) : list node := filter isElement (childNodes n).

(** [n.tagName]; [None] is [undefined]. *)
Definition tagName (n : node) : option string :=
  match n with Element t _ _ => Some t | _ => None end.

(** [n.tagName ? n.tagName.toLowerCase() : ""]. *)
Definition lowerTag (n : node) : string :=
  match n with
  | Element t _ _ => if Js.truthy t then Js.toLowerCase t else EmptyString
  | _ => EmptyString
  end.

(** [n.tagName && n.tagName.toLowerCase() === name]. *)
Definition hasTag (name : string) (n : node) : bool :=
  match n with
  | Element t _ _ => Js.truthy t && String.eqb (Js.toLowerCase t) name
  | _ => false
  end.

Fixpoint lookup (name : string) (attrs : list (string * string)) : option string :=
  match attrs with
  | [] => None
  | (k, v) :: r => if String.eqb k name then Some v else lookup name r
  end.

(** [el.getAttribute(name)]; [None] is [null]. *)
Definition getAttribute (el : node) (name : string) : option string :=
  match el with
  | Element _ attrs _ => lookup name attrs
  | _ => None
  end.

(** The parent of [n], put together again from the innermost frame. *)
Definition rebuild (f : frame) (n : node) : node :=
  let cs := (rev (before f) ++ n :: after f)%list in
  match parent f with
  | PElement t a => Element t a cs
  | PDocument => Document cs
  end.

(** [n.parentNode] with its own context; [None] is [null]. *)
Definition parentNode (n : node) (ctx : context) : option (node * context) :=
  match ctx with
  | [] => None
  | f :: up => Some (rebuild f n, up)
  end.

Definition previousSibling (ctx : context) : option node :=
  match ctx with
  | f :: _ => hd_error (before f)
  | [] => None
  end.

Definition nextSibling (ctx : context) : option node :=
  match ctx with
  | f :: _ => hd_error (after f)
  | [] => None
  end.

Definition previousElementSibling (ctx : context) : option node :=
  match ctx with
  | f :: _ => find isElement (before f)
  | [] => None
  end.

(** The tag of the parent when the parent is an element. *)
Definition parentTagName (ctx : context) : option string :=
  match ctx with
  | f :: _ => match parent f with PElement t _ => Some t | PDocument => None end
  | [] => None
  end.

(** [parentNode && parentNode.tagName && parentNode.tagName.toLowerCase() === name]. *)
Definition parentHasTag (name : string) (ctx : context) : bool :=
  match parentTagName ctx with
  | Some t => Js.truthy t && String.eqb (Js.toLowerCase t) name
  | None => false
  end.

Fixpoint selfOrDescendantHasTag (name : string) (n : node) : bool :=
  match n with
  | Element t _ cs =>
      String.eqb (Js.toLowerCase t) name || existsb (selfOrDescendantHasTag name) cs
  | Document cs => existsb (selfOrDescendantHasTag name) cs
  | _ => false
  end.

(** [n.querySelector(name)] for a type selector, as a truth value: is there
    a descendant element of that name? *)
Definition querySelector (name : string) (n : node) : bool :=
  existsb (selfOrDescendantHasTag name) (childNodes n).

End Dom.

Import Js Dom.

(* ================================================================== *)
(** ** Constants and helper functions *)
(* ================================================================== *)

Definition ATX : string := "atx".
Definition ATX_CLOSED : string := "atx_closed".
Definition UNDERLINED : string := "underlined".
Definition SPACES : string := "spaces".
Definition BACKSLASH : string := "backslash".
Definition ASTERISK : string := "*".
Definition UNDERSCORE : string := "_".
Definition STRIP : string := "strip".

(** [htmlHeadingRe.test(tag)]: the letter h and one digit from 1 to 6.  The
    digit is returned as [Number(tag.charAt(1))] needs it. *)
Definition headingLevel (tag : string) : option nat :=
  match tag with
  | String "h"%char (String d EmptyString) =>
      let n := nat_of_ascii d in
      if ((49 <=? n) && (n <=? 54))%nat then Some (n - 48)%nat else None
  | _ => None
  end.

Definition isHeading (tag : string) : bool :=
  match headingLevel tag with Some _ => true | None => false end.

(** [chomp]: a leading and a trailing space are recorded apart from the
    trimmed text. *)
Definition chomp (text : string) : string * string * string :=
  let prefix := if startsWith text SP then " " else EmptyString in
  let suffix := if endsWith text SP then " " else EmptyString in
  (prefix, suffix, trim text).

(** [findAncestor(el, tagNames)], as a truth value: the parents above the
    node that are elements are looked at, nearest first. *)
Definition findAncestor (ctx : context) (tagNames : list string) : bool :=
  existsb (fun f =>
             match parent f with
             | PElement t _ => includes tagNames (toLowerCase t)
             | PDocument => false
             end) ctx.

Definition codeTags : list string := ["pre"; "code"; "kbd"; "samp"].

Definition isBlockContent (n : node) : bool :=
  match n with
  | Element _ _ _ => true
  | Comment _ | DocumentType => false
  | Text v => negb (String.eqb (trim v) EmptyString)
  | Document _ => false
  end.

Definition prevBlockContentSibling (ctx : context) : option node :=
  match ctx with
  | f :: _ => find isBlockContent (before f)
  | [] => None
  end.

Definition nextBlockContentSibling (ctx : context) : option node :=
  match ctx with
  | f :: _ => find isBlockContent (after f)
  | [] => None
  end.

Definition blockTags : list string :=
  ["p"; "blockquote"; "article"; "div"; "section"; "ol"; "ul"; "li"; "table";
   "thead"; "tbody"; "tfoot"; "tr"; "td"; "th"].

(** [shouldRemoveWhitespaceInside(el)], from [el.tagName]; [None] stands for
    a reference that is [null] or has no [tagName]. *)
Definition shouldRemoveWhitespaceInside (tag : option string) : bool :=
  match tag with
  | None => false
  | Some t =>
      if truthy t
      then let tag := toLowerCase t in isHeading tag || includes blockTags tag
      else false
  end.

(** [shouldRemoveWhitespaceOutside(el)]; [None] is [null]. *)
Definition shouldRemoveWhitespaceOutside (el : option node) : bool :=
  match el with
  | Some (Element t a cs) =>
      shouldRemoveWhitespaceInside (Some t) || String.eqb (toLowerCase t) "pre"
  | _ => false
  end.

(** [wordWrap]: the loop over the words, then the last line. *)
Fixpoint wordWrap_loop (width : Z) (words lines : list string) (currentLine : string)
  : list string * string :=
  match words with
  | [] => (lines, currentLine)
  | word :: rest =>
      if (Z.of_nat (String.length (currentLine ++ word)) >? width)%Z
      then wordWrap_loop width rest (lines ++ [trim currentLine])%list (word ++ " ")
      else wordWrap_loop width rest lines (currentLine ++ word ++ " ")
  end.

Definition wordWrap (str : string) (width : Z) : string :=
  let '(lines, currentLine) := wordWrap_loop width (split SP str) [] EmptyString in
  join nl (if truthy currentLine then (lines ++ [trim currentLine])%list else lines).

(* ================================================================== *)
(** ** Options and the constructor *)
(* ================================================================== *)

(** The value of the options [strip] and [convert]: a list of tag names,
    [null], or [undefined], which the object of a caller can hold under the
    key and [Object.assign] copies like any other value. *)
Inductive tagList : Type :=
| Undefined
| Null
| Tags (l : list string).

Record options : Type := mkOptions {
  autolinks : bool;
  bullets : string;
  code_language : string;
  code_language_callback : option (node -> context -> string);
  convert : tagList;
  default_title : bool;
  escape_asterisks : bool;
  escape_underscores : bool;
  escape_misc : bool;
  heading_style : string;
  keep_inline_images_in : list string;
  newline_style : string;
  strip : tagList;
  strip_document : string;
  strong_em_symbol : string;
  sub_symbol : string;
  sup_symbol : string;
  table_infer_header : bool;
  wrap : bool;
  wrap_width : option Z
}.

Definition defaults : options := {|
  autolinks := true;
  bullets := "*+-";
  code_language := EmptyString;
  code_language_callback := None;
  convert := Null;
  default_title := false;
  escape_asterisks := true;
  escape_underscores := true;
  escape_misc := false;
  heading_style := UNDERLINED;
  keep_inline_images_in := [];
  newline_style := SPACES;
  strip := Null;
  strip_document := STRIP;
  strong_em_symbol := ASTERISK;
  sub_symbol := EmptyString;
  sup_symbol := EmptyString;
  table_infer_header := false;
  wrap := false;
  wrap_width := Some 80%Z
|}.

(** The object the caller passes: a field is [None] when the caller's object
    does not have the key.  For [code_language_callback] and [wrap_width]
    the inner [None] is the value [null]; for [convert] and [strip] the value
    is a [tagList]. *)
Record overrides : Type := mkOverrides {
  o_autolinks : option bool;
  o_bullets : option string;
  o_code_language : option string;
  o_code_language_callback : option (option (node -> context -> string));
  o_convert : option tagList;
  o_default_title : option bool;
  o_escape_asterisks : option bool;
  o_escape_underscores : option bool;
  o_escape_misc : option bool;
  o_heading_style : option string;
  o_keep_inline_images_in : option (list string);
  o_newline_style : option string;
  o_strip : option tagList;
  o_strip_document : option string;
  o_strong_em_symbol : option string;
  o_sub_symbol : option string;
  o_sup_symbol : option string;
  o_table_infer_header : option bool;
  o_wrap : option bool;
  o_wrap_width : option (option Z)
}.

(** The empty object: the default value of the constructor's argument. *)
Definition noOverrides : overrides :=
  mkOverrides None None None None None None None None None None
              None None None None None None None None None None.

Definition pick {A : Type} (d : A) (v : option A) : A :=
  match v with Some x => x | None => d end.

(** [Object.assign(defaults, options)]. *)
Definition assign (d : options) (v : overrides) : options := {|
  autolinks := pick (autolinks d) (o_autolinks v);
  bullets := pick (bullets d) (o_bullets v);
  code_language := pick (code_language d) (o_code_language v);
  code_language_callback := pick (code_language_callback d) (o_code_language_callback v);
  convert := pick (convert d) (o_convert v);
  default_title := pick (default_title d) (o_default_title v);
  escape_asterisks := pick (escape_asterisks d) (o_escape_asterisks v);
  escape_underscores := pick (escape_underscores d) (o_escape_underscores v);
  escape_misc := pick (escape_misc d) (o_escape_misc v);
  heading_style := pick (heading_style d) (o_heading_style v);
  keep_inline_images_in := pick (keep_inline_images_in d) (o_keep_inline_images_in v);
  newline_style := pick (newline_style d) (o_newline_style v);
  strip := pick (strip d) (o_strip v);
  strip_document := pick (strip_document d) (o_strip_document v);
  strong_em_symbol := pick (strong_em_symbol d) (o_strong_em_symbol v);
  sub_symbol := pick (sub_symbol d) (o_sub_symbol v);
  sup_symbol := pick (sup_symbol d) (o_sup_symbol v);
  table_infer_header := pick (table_infer_header d) (o_table_infer_header v);
  wrap := pick (wrap d) (o_wrap v);
  wrap_width := pick (wrap_width d) (o_wrap_width v)
|}.

(** What [new MarkdownConverter(options)] gives: a converter, which is its
    option record, or the error the constructor throws. *)
Inductive construction : Type :=
| Constructed (this_options : options)
| ConfigError (message : string).

Definition isSet {A : Type} (v : option A) : bool :=
  match v with Some _ => true | None => false end.

(** The test [v !== null]. *)
Definition notNull (v : tagList) : bool :=
  match v with Null => false | _ => true end.

Definition MarkdownConverter (v : overrides) : construction :=
  let this_options := assign defaults v in
  if notNull (strip this_options) && notNull (convert this_options)
  then ConfigError "You may specify either tags to strip or tags to convert, but not both."
  else Constructed this_options.

(* ================================================================== *)
(** ** The escaper *)
(* ================================================================== *)

(** The longest prefix of [s] in the class [p], and what follows it. *)
Fixpoint span (p : ascii -> bool) (s : string) : string * string :=
  match s with
  | EmptyString => (EmptyString, EmptyString)
  | String c r =>
      if p c then let '(run, rest) := span p r in (String c run, rest)
      else (EmptyString, s)
  end.

(** The tail [(?:\s|$)] of the three marker expressions: one white-space
    character is taken, or the string ends here. *)
Definition markerEnd (s : string) : option (string * string) :=
  match s with
  | EmptyString => Some (EmptyString, EmptyString)
  | String c r => if isSpace c then Some (String c EmptyString, r) else None
  end.

(** A marker body read at the head of a string: what goes before the
    inserted backslash, what goes after it, and the rest of the string. *)
Definition marker : Type := string -> option (string * string * string).

(** [-+(?:\s|$)]: a greedy run of hyphens can only be followed by the tail
    when it is the whole run. *)
Definition hyphenMarker : marker := fun s =>
  let '(run, rest) := span (Ascii.eqb "-"%char) s in
  if truthy run then
    match markerEnd rest with
    | Some (w, rest') => Some (EmptyString, run ++ w, rest')
    | None => None
    end
  else None.

(** [#{1,6}(?:\s|$)]. *)
Definition hashMarker : marker := fun s =>
  let '(run, rest) := span (Ascii.eqb "#"%char) s in
  if truthy run && (String.length run <=? 6)%nat then
    match markerEnd rest with
    | Some (w, rest') => Some (EmptyString, run ++ w, rest')
    | None => None
    end
  else None.

(** [[0-9]{1,9}] in the first group, then [[.)](?:\s|$)] in the second. *)
Definition ordinalMarker : marker := fun s =>
  let '(run, rest) := span isDigit s in
  if truthy run && (String.length run <=? 9)%nat then
    match rest with
    | String c rest1 =>
        if Ascii.eqb c "."%char || Ascii.eqb c ")"%char then
          match markerEnd rest1 with
          | Some (w, rest') => Some (run, String c w, rest')
          | None => None
          end
        else None
    | EmptyString => None
    end
  else None.

(** The head [(\s|^)] and then the marker: a white-space character is tried
    first, the start of the string second. *)
Definition markerAt (m : marker) (atStart : bool) (s : string)
  : option (string * string * string) :=
  let viaSpace :=
    match s with
    | String c r =>
        if isSpace c then
          match m r with
          | Some (pre, post, rest) => Some (String c pre, post, rest)
          | None => None
          end
        else None
    | EmptyString => None
    end in
  match viaSpace with
  | Some x => Some x
  | None => if atStart then m s else None
  end.

(** A global replace by ["$1\\$2"]: matches are looked for from left to
    right and the search goes on behind a match.  A match is never empty, so
    [fuel] above the length of the string is never used up. *)
Fixpoint escapeMarkers (m : marker) (fuel : nat) (atStart : bool) (s : string) : string :=
  match fuel with
  | O => s
  | S fuel' =>
      match s with
      | EmptyString => EmptyString
      | String c r =>
          match markerAt m atStart s with
          | Some (g1, g2, rest) =>
              g1 ++ String BSLASH g2 ++ escapeMarkers m fuel' false rest
          | None => String c (escapeMarkers m fuel' false r)
          end
      end
  end.

Definition replaceMarkers (m : marker) (s : string) : string :=
  escapeMarkers m (S (String.length s)) true s.

(** The class of the first expression of [escape_misc]. *)
Definition isMisc (c : ascii) : bool :=
  existsb (Ascii.eqb c)
    [BSLASH; "&"; "<"; "`"; "["; "]"; ">"; "~"; "="; "+"; "|"]%char.

Definition escape (o : options) (text : string) : string :=
  if negb (truthy text) then EmptyString else
  let text :=
    if escape_misc o then
      replaceMarkers ordinalMarker
        (replaceMarkers hashMarker
           (replaceMarkers hyphenMarker
              (replaceClass isMisc (fun c => String BSLASH (String c EmptyString)) text)))
    else text in
  let text :=
    if escape_asterisks o then replaceChar "*"%char (String BSLASH "*") text else text in
  let text :=
    if escape_underscores o then replaceChar "_"%char (String BSLASH "_") text else text in
  text.

(** [underline]: a setext heading. *)
Definition underline (text : string) (padChar : string) : string :=
  let text := trimEnd text in
  if truthy text
  then nl ++ nl ++ text ++ nl ++ repeat_string padChar (String.length text) ++ nl ++ nl
  else EmptyString.

(* ================================================================== *)
(** ** Text nodes *)
(* ================================================================== *)

(** [processText(node)] for a text node of value [nodeValue] that sits at
    [ctx]. *)
Definition processText (o : options) (nodeValue : string) (ctx : context) : string :=
  let text := nodeValue in
  let text :=
    if negb (findAncestor ctx ["pre"]) then
      if wrap o then collapseRuns isWs4 " " false text
      else collapseRuns isBlank " " false (collapseNewlineRuns false text)
    else text in
  let text :=
    if negb (findAncestor ctx codeTags) then escape o text else text in
  let text :=
    if shouldRemoveWhitespaceOutside (previousSibling ctx)
       || (shouldRemoveWhitespaceInside (parentTagName ctx)
           && negb (isSet (previousSibling ctx)))
    then stripStart isSpace text else text in
  let text :=
    if shouldRemoveWhitespaceOutside (nextSibling ctx)
       || (shouldRemoveWhitespaceInside (parentTagName ctx)
           && negb (isSet (nextSibling ctx)))
    then stripEnd isSpace text else text in
  text.

(** [shouldConvertTag(tag)].  A value that is not [null] is asked for its
    [includes]; [undefined] has none, which is a [TypeError]. *)
Definition shouldConvertTag (o : options) (tag : string) : result bool :=
  let lowerTag := if truthy tag then toLowerCase tag else EmptyString in
  match strip o with
  | Tags l => Ok (negb (includes l lowerTag))
  | Undefined => Throw TypeError
  | Null =>
      match convert o with
      | Tags l => Ok (includes l lowerTag)
      | Undefined => Throw TypeError
      | Null => Ok true
      end
  end.

(* ================================================================== *)
(** ** The tag rules *)
(* ================================================================== *)

(** A rule gets the options, the element with its context, the converted
    text of the children and the inline flag. *)
Definition rule : Type := options -> node -> context -> string -> bool -> result string.

Definition truthyAttr (v : option string) : bool :=
  match v with Some s => truthy s | None => false end.

Definition orEmpty (v : option string) : string :=
  match v with Some s => s | None => EmptyString end.

(** [abstractInlineConversion]; [markupPrefix] is what [markupFn] returns. *)
Definition abstractInlineConversion (markupPrefix : string) (ctx : context) (text : string)
  : string :=
  if findAncestor ctx codeTags then text else
  let '(prefix, suffix, chompedText) := chomp text in
  if negb (truthy chompedText) then EmptyString else
  let markupSuffix :=
    if startsWith markupPrefix "<"%char && endsWith markupPrefix ">"%char
    then "</" ++ slice 1 markupPrefix
    else markupPrefix in
  prefix ++ markupPrefix ++ chompedText ++ markupSuffix ++ suffix.

(** The part [ "title"] of a link or an image, quotes inside escaped. *)
Definition titlePart (title : option string) : string :=
  match title with
  | Some t =>
      if truthy t
      then " " ++ String DQUOTE (replaceChar DQUOTE (String BSLASH (String DQUOTE EmptyString)) t)
               ++ String DQUOTE EmptyString
      else EmptyString
  | None => EmptyString
  end.

Definition convert_a (o : options) (el : node) (ctx : context) (text : string)
  (convertAsInline : bool) : string :=
  if findAncestor ctx codeTags then text else
  let '(prefix, suffix, chompedText) := chomp text in
  if negb (truthy chompedText) then EmptyString else
  let href := getAttribute el "href" in
  let title := getAttribute el "title" in
  if autolinks o
     && match href with
        | Some h => String.eqb (unescapeUnderscore chompedText) h
        | None => false
        end
     && negb (truthyAttr title)
     && negb (default_title o)
  then "<" ++ orEmpty href ++ ">"
  else
    let title := if default_title o && negb (truthyAttr title) then href else title in
    if truthyAttr href
    then prefix ++ "[" ++ chompedText ++ "](" ++ orEmpty href ++ titlePart title ++ ")" ++ suffix
    else text.

Definition convert_b (o : options) (el : node) (ctx : context) (text : string)
  (convertAsInline : bool) : string :=
  abstractInlineConversion (repeat_string (strong_em_symbol o) 2) ctx text.

Definition convert_blockquote (o : options) (el : node) (ctx : context) (text : string)
  (convertAsInline : bool) : string :=
  let text := trim text in
  if convertAsInline then " " ++ text ++ " " else
  if negb (truthy text) then nl else
  let text := mapLines (fun p1 => if truthy p1 then "> " ++ p1 else ">") text in
  nl ++ text ++ nl ++ nl.

Definition convert_br (o : options) (el : node) (ctx : context) (text : string)
  (convertAsInline : bool) : string :=
  if convertAsInline then EmptyString else
  if String.eqb (toLowerCase (newline_style o)) BACKSLASH
  then String BSLASH nl
  else "  " ++ nl.

Definition convert_code (o : options) (el : node) (ctx : context) (text : string)
  (convertAsInline : bool) : string :=
  if parentHasTag "pre" ctx then text
  else abstractInlineConversion "`" ctx text.

Definition convert_del (o : options) (el : node) (ctx : context) (text : string)
  (convertAsInline : bool) : string :=
  abstractInlineConversion "~~" ctx text.

Definition convert_div (o : options) (el : node) (ctx : context) (text : string)
  (convertAsInline : bool) : string :=
  if convertAsInline then " " ++ trim text ++ " " else
  let text := trim text in
  if truthy text then nl ++ nl ++ text ++ nl ++ nl else EmptyString.

Definition convert_article := convert_div.
Definition convert_section := convert_div.

Definition convert_em (o : options) (el : node) (ctx : context) (text : string)
  (convertAsInline : bool) : string :=
  abstractInlineConversion (strong_em_symbol o) ctx text.

Definition convert_kbd := convert_code.

Definition convert_dd (o : options) (el : node) (ctx : context) (text : string)
  (convertAsInline : bool) : string :=
  let text := trim text in
  if convertAsInline then " " ++ text ++ " " else
  if negb (truthy text) then nl else
  let text := mapLines (fun p1 => if truthy p1 then "    " ++ p1 else EmptyString) text in
  let text := ":" ++ slice 1 text in
  text ++ nl.

Definition convert_dt (o : options) (el : node) (ctx : context) (text : string)
  (convertAsInline : bool) : string :=
  let text := trim text in
  let text := collapseRuns isWs4 " " false text in
  if convertAsInline then " " ++ text ++ " " else
  if negb (truthy text) then nl else
  nl ++ text ++ nl.

(** [_convert_hn]. *)
Definition _convert_hn (o : options) (n : nat) (el : node) (ctx : context) (text : string)
  (convertAsInline : bool) : string :=
  if convertAsInline then text else
  let n := Nat.max 1 (Nat.min 6 n) in
  let style := toLowerCase (heading_style o) in
  let text := trim text in
  if String.eqb style UNDERLINED && (n <=? 2)%nat then
    let line := if (n =? 1)%nat then "=" else "-" in
    underline text line
  else
    let text := collapseRuns isWs4 " " false text in
    let hashes := repeat_string "#" n in
    if String.eqb style ATX_CLOSED
    then nl ++ nl ++ hashes ++ " " ++ text ++ " " ++ hashes ++ nl ++ nl
    else nl ++ nl ++ hashes ++ " " ++ text ++ nl ++ nl.

Definition convert_hr (o : options) (el : node) (ctx : context) (text : string)
  (convertAsInline : bool) : string :=
  nl ++ nl ++ "---" ++ nl ++ nl.

Definition convert_i := convert_em.

(** [convert_img]; reading [tagName.toLowerCase()] off a parent that is not
    an element is a [TypeError]. *)
Definition convert_img (o : options) (el : node) (ctx : context) (text : string)
  (convertAsInline : bool) : result string :=
  let alt := orEmpty (getAttribute el "alt") in
  let src := orEmpty (getAttribute el "src") in
  let title := getAttribute el "title" in
  let markup := "![" ++ alt ++ "](" ++ src ++ titlePart title ++ ")" in
  if convertAsInline then
    match ctx with
    | [] => Ok alt
    | f :: _ =>
        match parent f with
        | PElement t _ =>
            if includes (keep_inline_images_in o) (toLowerCase t) then Ok markup else Ok alt
        | PDocument => Throw TypeError
        end
    end
  else Ok markup.

(** The walk [while (current)] of [convert_list], from the list itself
    upwards: is one of them an [li]? *)
Definition nestedInLi (el : node) (ctx : context) : bool :=
  hasTag "li" el
  || existsb (fun f =>
                match parent f with
                | PElement t _ => truthy t && String.eqb (toLowerCase t) "li"
                | PDocument => false
                end) ctx.

Definition convert_list (o : options) (el : node) (ctx : context) (text : string)
  (convertAsInline : bool) : string :=
  let beforeParagraph :=
    match nextBlockContentSibling ctx with
    | Some (Element t _ _) => truthy t && negb (includes ["ul"; "ol"] (toLowerCase t))
    | _ => false
    end in
  if nestedInLi el ctx then nl ++ stripEnd isLF text
  else nl ++ nl ++ text ++ (if beforeParagraph then nl else EmptyString).

Definition convert_ul := convert_list.
Definition convert_ol := convert_list.

(** The number [start] of [convert_li] from the [start] attribute of the
    parent. *)
Definition startNumber (startAttr : option string) : number :=
  match startAttr with
  | Some s => if truthy s && negb (Number_isNaN_string s) then parseInt10 s else Num 1
  | None => Num 1
  end.

(** [depth] of [convert_li]: one less than the number of [ul] among the
    element and the nodes above it. *)
Definition ulDepth (el : node) (ctx : context) : Z :=
  (-1 + Z.of_nat ((if hasTag "ul" el then 1 else 0)
                  + List.length (filter (fun f =>
                      match parent f with
                      | PElement t _ => truthy t && String.eqb (toLowerCase t) "ul"
                      | PDocument => false
                      end) ctx)))%Z.

(** [bullets[depth % bullets.length] + ""]: the remainder has the sign of
    [depth]; a remainder that is NaN or negative indexes nothing, and the
    value [undefined] prints as such. *)
Definition bulletChar (bullets : string) (depth : Z) : string :=
  let len := Z.of_nat (String.length bullets) in
  if (len =? 0)%Z then "undefined" else
  let i := Z.rem depth len in
  if (i <? 0)%Z then "undefined" else
  match String.get (Z.to_nat i) bullets with
  | Some c => String c EmptyString
  | None => "undefined"
  end.

Definition isLi (n : node) : bool := hasTag "li" n.

(** The bullet of [convert_li], before the space is added. *)
Definition liBullet (o : options) (el : node) (ctx : context) : string :=
  match ctx with
  | f :: _ =>
      match parent f with
      | PElement t attrs =>
          if truthy t && String.eqb (toLowerCase t) "ol" then
            let start := startNumber (lookup "start" attrs) in
            (* prevLis.indexOf(el): the li children before el, or -1 *)
            let index :=
              if isLi el then Z.of_nat (List.length (filter isLi (before f))) else (-1)%Z in
            numberToString (add start (Num index)) ++ "."
          else bulletChar (bullets o) (ulDepth el ctx)
      | PDocument => bulletChar (bullets o) (ulDepth el ctx)
      end
  | [] => bulletChar (bullets o) (ulDepth el ctx)
  end.

Definition convert_li (o : options) (el : node) (ctx : context) (text : string)
  (convertAsInline : bool) : string :=
  let text := trim text in
  if negb (truthy text) then nl else
  let bullet := liBullet o el ctx in
  let bullet := bullet ++ " " in
  let bulletWidth := String.length bullet in
  let bulletIndent := repeat_string " " bulletWidth in
  let text := mapLines (fun p1 => if truthy p1 then bulletIndent ++ p1 else EmptyString) text in
  let text := bullet ++ slice bulletWidth text in
  text ++ nl.

Definition convert_p (o : options) (el : node) (ctx : context) (text : string)
  (convertAsInline : bool) : string :=
  if convertAsInline then " " ++ trim text ++ " " else
  let text := trim text in
  let text :=
    if wrap o then
      match wrap_width o with
      | Some width =>
          join nl (map (fun line => wordWrap (trimStart line) width) (split LF text))
      | None => text
      end
    else text in
  if truthy text then nl ++ nl ++ text ++ nl ++ nl else EmptyString.

Definition convert_pre (o : options) (el : node) (ctx : context) (text : string)
  (convertAsInline : bool) : string :=
  if negb (truthy text) then EmptyString else
  let codeLang := code_language o in
  let codeLang :=
    match code_language_callback o with
    | Some callback => let l := callback el ctx in if truthy l then l else codeLang
    | None => codeLang
    end in
  nl ++ nl ++ "```" ++ codeLang ++ nl ++ text ++ nl ++ "```" ++ nl ++ nl.

Definition convert_script (o : options) (el : node) (ctx : context) (text : string)
  (convertAsInline : bool) : string := EmptyString.

Definition convert_style := convert_script.
Definition convert_s := convert_del.
Definition convert_strong := convert_b.
Definition convert_samp := convert_code.

Definition convert_sub (o : options) (el : node) (ctx : context) (text : string)
  (convertAsInline : bool) : string :=
  abstractInlineConversion (sub_symbol o) ctx text.

Definition convert_sup (o : options) (el : node) (ctx : context) (text : string)
  (convertAsInline : bool) : string :=
  abstractInlineConversion (sup_symbol o) ctx text.

Definition convert_table (o : options) (el : node) (ctx : context) (text : string)
  (convertAsInline : bool) : string :=
  nl ++ nl ++ trim text ++ nl ++ nl.

Definition convert_caption (o : options) (el : node) (ctx : context) (text : string)
  (convertAsInline : bool) : string :=
  trim text ++ nl ++ nl.

Definition convert_figcaption (o : options) (el : node) (ctx : context) (text : string)
  (convertAsInline : bool) : string :=
  nl ++ nl ++ trim text ++ nl ++ nl.

(** [cs && !Number.isNaN(cs) ? parseInt(cs, 10) : 1] of the table rules. *)
Definition colspanOf (cell : node) : number :=
  match getAttribute cell "colspan" with
  | Some cs => if truthy cs && negb (Number_isNaN_string cs) then parseInt10 cs else Num 1
  | None => Num 1
  end.

(** [convert_td] and [convert_th]: the bars are as many as the colspan
    says, so the cell is a [built] string. *)
Definition convert_td (o : options) (el : node) (ctx : context) (text : string)
  (convertAsInline : bool) : result string :=
  let colspan := colspanOf el in
  pipes <- repeat " |" colspan ;;
  built (" " ++ replaceChar LF " " (trim text) ++ pipes).

Definition convert_th := convert_td.

Definition isCell (child : node) : bool :=
  let t := lowerTag child in String.eqb t "td" || String.eqb t "th".

(** [isHeadRowMissing] of [convert_tr].  The parent's [tagName] is lowered
    without a test, and [querySelector] is called on the parent's parent
    without a test: a parent that is not an element, or a [tbody] without
    parent, is a [TypeError]. *)
Definition headRowMissing (el : node) (ctx : context) (isFirstRow : bool) : result bool :=
  if isFirstRow then
    match ctx with
    | [] => Ok false
    | f :: up =>
        match parent f with
        | PDocument => Throw TypeError
        | PElement t _ =>
            if negb (String.eqb (toLowerCase t) "tbody") then Ok true
            else
              match up with
              | [] => Throw TypeError
              | g :: _ => Ok (negb (querySelector "thead" (rebuild g (rebuild f el))))
              end
        end
    end
  else Ok false.

(** The test [isFirstRow && (parent is a table || (parent is a tbody without
    element before it))] of the second branch of [convert_tr]. *)
Definition structurallyFirst (ctx : context) (isFirstRow : bool) : result bool :=
  if isFirstRow then
    match ctx with
    | [] => Throw TypeError
    | f :: up =>
        match parent f with
        | PDocument => Throw TypeError
        | PElement t _ =>
            Ok (String.eqb (toLowerCase t) "table"
                || (String.eqb (toLowerCase t) "tbody"
                    && negb (isSet (previousElementSibling up))))
        end
    end
  else Ok false.

(** [convert_tr].  The separator line is as long as the colspans of the
    cells say, so the strings of that branch are [built]; the two header
    lines of the other branch are as long as the row has cells. *)
Definition convert_tr (o : options) (el : node) (ctx : context) (text : string)
  (convertAsInline : bool) : result string :=
  let cells := filter isCell (children el) in
  let isFirstRow := negb (isSet (previousElementSibling ctx)) in
  let isHeadRow :=
    forallb (hasTag "th") cells
    || (parentHasTag "thead" ctx
        && match parentNode el ctx with
           | Some (p, _) => (List.length (children p) =? 1)%nat
           | None => false
           end) in
  isHeadRowMissing <- headRowMissing el ctx isFirstRow ;;
  if (isHeadRow || (isHeadRowMissing && table_infer_header o)) && isFirstRow then
    let fullColspan := fold_left (fun sum cell => add sum (colspanOf cell)) cells (Num 0) in
    segments <- Array_fill fullColspan "---" ;;
    line <- built (join " | " segments) ;;
    underline <- built ("| " ++ line ++ " |" ++ nl) ;;
    built ("|" ++ text ++ nl ++ underline)
  else
    second <- (if isHeadRowMissing && negb (table_infer_header o) then Ok true
               else structurallyFirst ctx isFirstRow) ;;
    if (second : bool) then
      let n := List.length cells in
      let overline :=
        "| " ++ join " | " (List.repeat EmptyString n) ++ " |" ++ nl
        ++ "| " ++ join " | " (List.repeat "___" n) ++ " |" ++ nl in
      Ok (overline ++ "|" ++ text ++ nl)
    else Ok ("|" ++ text ++ nl).

(** The table of rules: [this["convert_" + name]] is a function exactly for
    these names. *)
Definition pure (f : options -> node -> context -> string -> bool -> string) : rule :=
  fun o el ctx text inline => Ok (f o el ctx text inline).

Definition rules : list (string * rule) :=
  [ ("a", pure convert_a); ("b", pure convert_b); ("blockquote", pure convert_blockquote);
    ("br", pure convert_br); ("code", pure convert_code); ("del", pure convert_del);
    ("div", pure convert_div); ("article", pure convert_article);
    ("section", pure convert_section); ("em", pure convert_em); ("kbd", pure convert_kbd);
    ("dd", pure convert_dd); ("dt", pure convert_dt); ("hr", pure convert_hr);
    ("i", pure convert_i); ("img", convert_img); ("list", pure convert_list);
    ("ul", pure convert_ul); ("ol", pure convert_ol); ("li", pure convert_li);
    ("p", pure convert_p); ("pre", pure convert_pre); ("script", pure convert_script);
    ("style", pure convert_style); ("s", pure convert_s); ("strong", pure convert_strong);
    ("samp", pure convert_samp); ("sub", pure convert_sub); ("sup", pure convert_sup);
    ("table", pure convert_table); ("caption", pure convert_caption);
    ("figcaption", pure convert_figcaption); ("td", convert_td); ("th", convert_th);
    ("tr", convert_tr) ].

Fixpoint ruleNamed (name : string) (l : list (string * rule)) : option rule :=
  match l with
  | [] => None
  | (k, r) :: rest => if String.eqb k name then Some r else ruleNamed name rest
  end.

(** The class of the expression that turns a tag into a method name. *)
Definition isNameBreaker (c : ascii) : bool :=
  existsb (Ascii.eqb c) ["["; "]"; ":"; "-"]%char.

(** [this[funcName]] when it is a function.  A node without [tagName] has a
    [nodeName] that starts with a hash sign, and no rule has such a name. *)
Definition ruleFor (tag : string) : option rule :=
  if truthy tag
  then ruleNamed (replaceClass isNameBreaker (fun _ => "_") tag) rules
  else None.

(* ================================================================== *)
(** ** The walker *)
(* ================================================================== *)

(** The merge of the text of an element child into the accumulated text. *)
Definition mergeChild (text nextText : string) : string :=
  let textStrip := stripEnd isLF text in
  let newlinesLeft := (String.length text - String.length textStrip)%nat in
  let nextTextStrip := stripStart isLF nextText in
  let newlinesRight := (String.length nextText - String.length nextTextStrip)%nat in
  let newlines := repeat_string nl (Nat.max newlinesLeft newlinesRight) in
  textStrip ++ newlines ++ nextTextStrip.

(** [canIgnore(child)] inside [processTag]; the siblings of the child are
    passed, [None] being [null]. *)
Definition canIgnore (removeInside : bool) (child : node)
  (previousSibling nextSibling : option node) : bool :=
  match child with
  | Element _ _ _ => false
  | Comment _ | DocumentType => true
  | Text v =>
      if negb (String.eqb (trim v) EmptyString) then false
      else if removeInside && (negb (isSet previousSibling) || negb (isSet nextSibling))
      then true
      else if shouldRemoveWhitespaceOutside previousSibling
              || shouldRemoveWhitespaceOutside nextSibling
      then true
      else false
  | Document _ => false
  end.

(** [convertChildrenAsInline] of [processTag]. *)
Definition convertChildrenAsInline (tag : string) (convertAsInline : bool) : bool :=
  convertAsInline || isHeading tag || (String.eqb tag "td" || String.eqb tag "th").

(** A node seen from its children. *)
Definition asParent (n : node) : parentKind :=
  match n with
  | Element t a _ => PElement t a
  | _ => PDocument
  end.

Section Fold.

Variable o : options.
(** [this.processTag], for the calls on the children. *)
Variable processChild : node -> context -> bool -> result string.
(** The node whose children are folded: what it is as a parent, its own
    context, and the two values computed before the loop. *)
Variable self : parentKind.
Variable ctx : context.
Variable removeInside : bool.
Variable childrenAsInline : bool.

(** The loop [for (const child of children)] fused with the filter that
    builds [children]: [before] are the child nodes already passed
    (nearest first), [rest] the ones to come, [text] the accumulator. *)
Fixpoint foldChildren (before rest : list node) (text : string) : result string :=
  match rest with
  | [] => Ok text
  | child :: after =>
      let here := mkFrame self before after :: ctx in
      if canIgnore removeInside child (hd_error before) (hd_error after)
      then foldChildren (child :: before) after text
      else
        match child with
        | Text v => foldChildren (child :: before) after (text ++ processText o v here)
        | _ =>
            nextText <- processChild child here childrenAsInline ;;
            foldChildren (child :: before) after (mergeChild text nextText)
        end
  end.

End Fold.

(** The end of [processTag]: the rule of the tag, the heading rule, or the
    text as it is. *)
Definition applyRule (o : options) (node : node) (ctx : context) (tag : string)
  (text : string) (convertAsInline : bool) : result string :=
  let headingOrText :=
    match headingLevel tag with
    | Some n =>
        wanted <- shouldConvertTag o tag ;;
        if (wanted : bool) then Ok (_convert_hn o n node ctx text convertAsInline)
        else Ok text
    | None => Ok text
    end in
  match ruleFor tag with
  | Some r =>
      wanted <- shouldConvertTag o tag ;;
      if (wanted : bool) then r o node ctx text convertAsInline else headingOrText
  | None => headingOrText
  end.

(** [processTag(node, convertAsInline)].  The recursion is as deep as the
    tree; the call stack of the engine, which bounds that depth, is not
    modelled. *)
Fixpoint processTag (o : options) (node : node) (ctx : context) (convertAsInline : bool)
  {struct node} : result string :=
  let tag := lowerTag node in
  let childrenAsInline := convertChildrenAsInline tag convertAsInline in
  let removeInside := shouldRemoveWhitespaceInside (tagName node) in
  text <- match node with
          | Element _ _ cs | Document cs =>
              foldChildren o (processTag o) (asParent node) ctx removeInside
                           childrenAsInline [] cs EmptyString
          | _ => Ok EmptyString
          end ;;
  applyRule o node ctx tag text convertAsInline.

(** The method [convert(dom)], for a node [dom] that sits at [ctx] in its
    document ([convert] alone is the option of that name). *)
Definition convert_ (o : options) (dom : node) (ctx : context) : result string :=
  processTag o dom ctx false.

(** What a call of [markdownify] comes to: the error of the constructor, an
    error of the run time during the walk, or the Markdown text. *)
Inductive outcome : Type :=
| Returned (markdown : string)
| Raised (e : exn)
| Rejected (message : string).

(** [markdownify(dom, options)]. *)
Definition markdownify (dom : node) (ctx : context) (v : overrides) : outcome :=
  match MarkdownConverter v with
  | ConfigError m => Rejected m
  | Constructed o =>
      match convert_ o dom ctx with
      | Ok s => Returned s
      | Throw e => Raised e
      end
  end.

(* ================================================================== *)
(** ** Notions used by the statements *)
(* ================================================================== *)

Fixpoint countChar (c : ascii) (s : string) : nat :=
  match s with
  | EmptyString => 0
  | String d r => ((if Ascii.eqb d c then 1 else 0) + countChar c r)%nat
  end.

(** A text that is empty or made of white space only. *)
Definition whitespaceOnly (s : string) : bool := all_in isSpace s.




(** The separator line under a head row, with [n] segments. *)
Definition separatorLine (n : nat) : string :=
  "| " ++ join " | " (List.repeat "---" n) ++ " |" ++ nl.

(** A string the engine can hold. *)
Definition fitsString (s : string) : Prop :=
  (Z.of_nat (String.length s) <= maxStringLength)%Z.

(** The cells of a row, as [convert_tr] selects them. *)
Definition cellsOf (el : node) : list node := filter isCell (children el).

(** The colspan of a cell when its attribute is usable: absent or empty
    counts 1, a decimal numeral counts its value. *)
Definition colspanValue (cell : node) : option Z :=
  match colspanOf cell with
  | Num k => if (0 <=? k)%Z then Some k else None
  | NaN => None
  end.

Fixpoint totalColspan (cells : list node) : Z :=
  match cells with
  | [] => 0
  | c :: r => (match colspanValue c with Some k => k | None => 0 end + totalColspan r)%Z
  end.

(** The row is a head row: every cell is a [th], or the parent is a [thead]
    whose only child element is the row. *)
Definition isHeadRow (el : node) (ctx : context) : Prop :=
  forallb (hasTag "th") (cellsOf el) = true
  \/ (parentHasTag "thead" ctx = true
      /\ exists p up, parentNode el ctx = Some (p, up) /\ List.length (children p) = 1%nat).

(** The row sits where [convert_tr] can ask for its surroundings: its
    parent, if any, is an element, and a [tbody] parent has a parent. *)
Definition rowPlaced (ctx : context) : Prop :=
  match ctx with
  | [] => True
  | f :: up =>
      match parent f with
      | PDocument => False
      | PElement t _ => toLowerCase t = "tbody" -> up <> []
      end
  end.

(** A marker that matches takes at least one character. *)
Definition consuming (m : marker) : Prop :=
  forall s pre post rest,
    m s = Some (pre, post, rest) -> (String.length rest < String.length s)%nat.

(** A call of [processTag]: the node, where it sits, and the inline flag. *)
Definition call : Type := (node * context * bool)%type.

(** [callsChild c d]: the loop of [processTag], run for the call [c], calls
    [processTag] on a child as [d]. *)
Inductive callsChild : call -> call -> Prop :=
| callsChild_intro (n : node) (ctx : context) (convertAsInline : bool)
    (before : list node) (child : node) (after : list node) :
    childNodes n = (rev before ++ child :: after)%list ->
    canIgnore (shouldRemoveWhitespaceInside (tagName n)) child
              (hd_error before) (hd_error after) = false ->
    (forall v, child <> Text v) ->
    callsChild (n, ctx, convertAsInline)
               (child, mkFrame (asParent n) before after :: ctx,
                convertChildrenAsInline (lowerTag n) convertAsInline).

(** The calls made below a call, at any depth. *)
Inductive callsBelow : call -> call -> Prop :=
| callsBelow_here (c : call) : callsBelow c c
| callsBelow_step (c d e : call) : callsChild c d -> callsBelow d e -> callsBelow c e.

(** Some documents and option records the statements name. *)
Definition elem (tag : string) (cs : list node) : node := Element tag [] cs.


(** The default options with [table_infer_header] on. *)
Definition inferringHeader : options :=
  assign defaults
    (mkOverrides None None None None None None None None None None
                 None None None None None None None (Some true) None None).


Definition withDefaultTitle : options :=
  assign defaults
    (mkOverrides None None None None None (Some true) None None None None
                 None None None None None None None None None None).

(* ================================================================== *)
(** ** Notions used by the further properties *)
(* ================================================================== *)

(** Does the first, the last character of a string belong to a class? *)
Definition headIn (p : ascii -> bool) (s : string) : bool :=
  match s with String c _ => p c | EmptyString => false end.

Fixpoint lastIn (p : ascii -> bool) (s : string) : bool :=
  match s with
  | EmptyString => false
  | String c EmptyString => p c
  | String _ r => lastIn p r
  end.

(** No character of the string belongs to the class. *)
Definition noneIn (p : ascii -> bool) (s : string) : bool :=
  all_in (fun c => negb (p c)) s.

(** The text holds no line terminator but the line feed: no carriage
    return (and, as every string of the model, neither U+2028 nor
    U+2029). *)
Definition breaksAtLineFeedOnly (s : string) : bool :=
  noneIn (fun c => isLineTerminator c && negb (isLF c)) s.

(** [insertsOnly c s t]: the string [t] is [s] with copies of the character
    [c] inserted, and nothing else changed. *)
Inductive insertsOnly (c : ascii) : string -> string -> Prop :=
| insertsOnly_nil : insertsOnly c EmptyString EmptyString
| insertsOnly_keep (x : ascii) (s t : string) :
    insertsOnly c s t -> insertsOnly c (String x s) (String x t)
| insertsOnly_add (s t : string) :
    insertsOnly c s t -> insertsOnly c s (String c t).

(** A marker that matches splits the string it reads into its two groups
    and the rest. *)
Definition splitting (m : marker) : Prop :=
  forall s pre post rest, m s = Some (pre, post, rest) -> s = pre ++ post ++ rest.



(** A line after its indentation: an empty line stays empty. *)
Definition indentLine (indent : string) (line : string) : string :=
  if truthy line then indent ++ line else EmptyString.

(** A line of a quotation. *)
Definition quoteLine (line : string) : string :=
  if truthy line then "> " ++ line else ">".

(* ================================================================== *)
(** ** Lemmas on strings *)
(* ================================================================== *)

Lemma append_assoc (a b c : string) : (a ++ b) ++ c = a ++ (b ++ c).
Proof. induction a as [|x a IH]; simpl; [reflexivity | now rewrite IH]. Qed.

Lemma append_nil_r (a : string) : a ++ EmptyString = a.
Proof. induction a as [|x a IH]; simpl; [reflexivity | now rewrite IH]. Qed.

Lemma length_append (a b : string) :
  String.length (a ++ b) = (String.length a + String.length b)%nat.
Proof. induction a as [|x a IH]; simpl; [reflexivity | now rewrite IH]. Qed.

Lemma length_repeat_nl (k : nat) : String.length (repeat_string nl k) = k.
Proof. induction k as [|k IH]; simpl; [reflexivity | now rewrite IH]. Qed.

Lemma isLF_true (c : ascii) : isLF c = true -> c = LF.
Proof. unfold isLF. intros H. now apply Ascii.eqb_eq. Qed.

(** A string of line feeds is [nl] repeated. *)
Lemma all_newlines_repeat (s : string) :
  all_in isLF s = true -> s = repeat_string nl (String.length s).
Proof.
  induction s as [|c r IH]; simpl; intros H; [reflexivity|].
  apply andb_true_iff in H as [Hc Hr].
  apply isLF_true in Hc. subst c. now rewrite <- IH.
Qed.

Lemma stripEnd_length (p : ascii -> bool) (s : string) :
  (String.length (stripEnd p s) <= String.length s)%nat.
Proof.
  induction s as [|c r IH]; simpl; [lia|].
  destruct (p c && all_in p r); simpl; lia.
Qed.

Lemma stripStart_length (p : ascii -> bool) (s : string) :
  (String.length (stripStart p s) <= String.length s)%nat.
Proof.
  induction s as [|c r IH]; simpl; [lia|].
  destruct (p c); simpl; lia.
Qed.

(** What [stripEnd] removes is the run of line feeds at the end. *)
Lemma stripEnd_newlines (s : string) :
  s = stripEnd isLF s
      ++ repeat_string nl (String.length s - String.length (stripEnd isLF s)).
Proof.
  induction s as [|c r IH]; [reflexivity|].
  simpl stripEnd. destruct (isLF c && all_in isLF r) eqn:E.
  - simpl. apply andb_true_iff in E as [Hc Hr].
    apply isLF_true in Hc. subst c.
    rewrite (all_newlines_repeat r Hr) at 1. reflexivity.
  - pose proof (stripEnd_length isLF r).
    simpl. f_equal. exact IH.
Qed.

Lemma endsWith_cons (c : ascii) (r : string) (x : ascii) :
  r <> EmptyString -> endsWith (String c r) x = endsWith r x.
Proof. destruct r; [congruence | reflexivity]. Qed.

Lemma stripEnd_nil_all (p : ascii -> bool) (s : string) :
  stripEnd p s = EmptyString -> all_in p s = true.
Proof.
  destruct s as [|c r]; simpl; [reflexivity|].
  destruct (p c && all_in p r); [reflexivity | discriminate].
Qed.

(** What [stripEnd] leaves does not end in a line feed. *)
Lemma stripEnd_no_trailing (s : string) : endsWith (stripEnd isLF s) LF = false.
Proof.
  induction s as [|c r IH]; [reflexivity|].
  simpl stripEnd. destruct (isLF c && all_in isLF r) eqn:E; [reflexivity|].
  destruct (stripEnd isLF r) eqn:R.
  - apply stripEnd_nil_all in R. rewrite R, andb_true_r in E.
    simpl. exact E.
  - rewrite endsWith_cons by discriminate. exact IH.
Qed.

(** What [stripStart] removes is the run of line feeds at the start. *)
Lemma stripStart_newlines (s : string) :
  s = repeat_string nl (String.length s - String.length (stripStart isLF s))
      ++ stripStart isLF s.
Proof.
  induction s as [|c r IH]; [reflexivity|].
  simpl stripStart. destruct (isLF c) eqn:E.
  - pose proof (stripStart_length isLF r).
    apply isLF_true in E. subst c.
    replace (String.length (String LF r) - String.length (stripStart isLF r))%nat
      with (S (String.length r - String.length (stripStart isLF r)))
      by (cbn [String.length]; lia).
    cbn [repeat_string nl append]. f_equal. exact IH.
  - now rewrite Nat.sub_diag.
Qed.

Lemma stripStart_no_leading (s : string) : startsWith (stripStart isLF s) LF = false.
Proof.
  induction s as [|c r IH]; [reflexivity|].
  simpl stripStart. destruct (isLF c) eqn:E; [exact IH | exact E].
Qed.

Lemma all_in_append (p : ascii -> bool) (a b : string) :
  all_in p (a ++ b) = all_in p a && all_in p b.
Proof.
  induction a as [|c r IH]; simpl; [reflexivity|].
  now rewrite IH, andb_assoc.
Qed.

Lemma all_in_repeat_nl (k : nat) : all_in isLF (repeat_string nl k) = true.
Proof. induction k as [|k IH]; simpl; [reflexivity | exact IH]. Qed.

Lemma all_newlines_endsWith (s : string) :
  all_in isLF s = true -> s <> EmptyString -> endsWith s LF = true.
Proof.
  induction s as [|c r IH]; intros H Hne; [congruence|].
  simpl in H. apply andb_true_iff in H as [Hc Hr].
  destruct r as [|d r'].
  - simpl. exact Hc.
  - rewrite endsWith_cons by discriminate. apply IH; [exact Hr | discriminate].
Qed.

Lemma endsWith_tail (c : ascii) (r : string) (x : ascii) :
  endsWith (String c r) x = false -> endsWith r x = false.
Proof. destruct r; [reflexivity | intros H; exact H]. Qed.

(** A text splits in one way only into a part without line feed at its end
    and a run of line feeds: the count of trailing line feeds is a function
    of the text. *)
Lemma trailing_run_unique (a a' : string) (k k' : nat) :
  endsWith a LF = false -> endsWith a' LF = false ->
  a ++ repeat_string nl k = a' ++ repeat_string nl k' -> a = a' /\ k = k'.
Proof.
  revert a'. induction a as [|c r IH]; intros [|c' r'] Ha Ha' E.
  - split; [reflexivity|]. simpl in E.
    apply (f_equal String.length) in E. now rewrite !length_repeat_nl in E.
  - exfalso. simpl append at 1 in E.
    assert (H : all_in isLF (String c' r' ++ repeat_string nl k') = true).
    { rewrite <- E. apply all_in_repeat_nl. }
    rewrite all_in_append in H. apply andb_true_iff in H as [H _].
    apply all_newlines_endsWith in H; [congruence | discriminate].
  - exfalso. simpl append at 2 in E.
    assert (H : all_in isLF (String c r ++ repeat_string nl k) = true).
    { rewrite E. apply all_in_repeat_nl. }
    rewrite all_in_append in H. apply andb_true_iff in H as [H _].
    apply all_newlines_endsWith in H; [congruence | discriminate].
  - simpl in E. injection E as Ec Er. subst c'.
    apply endsWith_tail in Ha. apply endsWith_tail in Ha'.
    destruct (IH r' Ha Ha' Er) as [-> ->]. split; reflexivity.
Qed.

(* ================================================================== *)
(** ** The walker: unfolding, merging, the inline flag *)
(* ================================================================== *)

(** [processTag] is the fold over the children, then the rule. *)
Lemma processTag_unfold (o : options) (n : node) (ctx : context) (convertAsInline : bool) :
  processTag o n ctx convertAsInline
  = (text <- foldChildren o (processTag o) (asParent n) ctx
               (shouldRemoveWhitespaceInside (tagName n))
               (convertChildrenAsInline (lowerTag n) convertAsInline)
               [] (childNodes n) EmptyString ;;
     applyRule o n ctx (lowerTag n) text convertAsInline).
Proof. destruct n; reflexivity. Qed.


Lemma stripEnd_after_run (a : string) (k : nat) :
  endsWith a LF = false -> stripEnd isLF (a ++ repeat_string nl k) = a.
Proof.
  intros Ha.
  pose proof (stripEnd_newlines (a ++ repeat_string nl k)) as H.
  pose proof (stripEnd_no_trailing (a ++ repeat_string nl k)) as H'.
  symmetry. now apply (trailing_run_unique a _ k _ Ha H' H).
Qed.

Lemma stripStart_before_run (b : string) (l : nat) :
  startsWith b LF = false -> stripStart isLF (repeat_string nl l ++ b) = b.
Proof.
  intros Hb. induction l as [|l IH]; [|exact IH].
  destruct b as [|c r]; [reflexivity|]. cbn [repeat_string append stripStart].
  unfold isLF. cbn [startsWith] in Hb. now rewrite Hb.
Qed.

(** The merge of a text that ends in [k] line feeds with a text that starts
    with [l] of them. *)
Lemma mergeChild_runs (a b : string) (k l : nat) :
  endsWith a LF = false -> startsWith b LF = false ->
  mergeChild (a ++ repeat_string nl k) (repeat_string nl l ++ b)
  = a ++ repeat_string nl (Nat.max k l) ++ b.
Proof.
  intros Ha Hb. unfold mergeChild.
  rewrite (stripEnd_after_run a k Ha), (stripStart_before_run b l Hb).
  rewrite !length_append, !length_repeat_nl.
  replace (String.length a + k - String.length a)%nat with k by lia.
  replace (l + String.length b - String.length b)%nat with l by lia.
  reflexivity.
Qed.




(** The loop of [processTag] consults [processTag] on the children only as
    [callsChild] says: two functions that agree on those calls give the same
    fold. *)
Lemma foldChildren_calls (o : options) (f g : node -> context -> bool -> result string)
  (n : node) (ctx : context) (convertAsInline : bool) :
  (forall child ctx' b,
      callsChild (n, ctx, convertAsInline) (child, ctx', b) -> f child ctx' b = g child ctx' b) ->
  forall (rest before : list node) (text : string),
    childNodes n = (rev before ++ rest)%list ->
    foldChildren o f (asParent n) ctx (shouldRemoveWhitespaceInside (tagName n))
                 (convertChildrenAsInline (lowerTag n) convertAsInline) before rest text
    = foldChildren o g (asParent n) ctx (shouldRemoveWhitespaceInside (tagName n))
                   (convertChildrenAsInline (lowerTag n) convertAsInline) before rest text.
Proof.
  intros Hfg rest. induction rest as [|child after IH]; intros before text Hcs;
    [reflexivity|].
  assert (Hnext : childNodes n = (rev (child :: before) ++ after)%list).
  { rewrite Hcs. simpl. now rewrite <- app_assoc. }
  cbn [foldChildren].
  destruct (canIgnore _ child (hd_error before) (hd_error after)) eqn:Hign;
    [apply IH; exact Hnext|].
  assert (Hcall : (forall v, child <> Text v) ->
            f child (mkFrame (asParent n) before after :: ctx)
              (convertChildrenAsInline (lowerTag n) convertAsInline)
            = g child (mkFrame (asParent n) before after :: ctx)
                (convertChildrenAsInline (lowerTag n) convertAsInline)).
  { intros Hv. apply Hfg. now constructor. }
  destruct child as [t a cs | v | v | | cs];
    try (apply IH; exact Hnext);
    (rewrite Hcall by (intros ?; discriminate);
     destruct (g _ _ _); cbn [bind]; [apply IH; exact Hnext | reflexivity]).
Qed.

(** One call down, the flag is the flag above, or turned on by a heading or
    a table cell. *)
Lemma callsChild_flag (c d : call) :
  callsChild c d ->
  snd d = snd c
          || isHeading (lowerTag (fst (fst c)))
          || (String.eqb (lowerTag (fst (fst c))) "td" || String.eqb (lowerTag (fst (fst c))) "th").
Proof.
  intros H. destruct H. cbn [fst snd]. unfold convertChildrenAsInline.
  now rewrite orb_assoc.
Qed.

(** The flag stays on along the calls that [callsBelow] lists. *)
Lemma callsBelow_flag (c d : call) : callsBelow c d -> snd c = true -> snd d = true.
Proof.
  intros H. induction H as [c | c d e Hstep _ IH]; intros Hc; [exact Hc|].
  apply IH. rewrite (callsChild_flag c d Hstep), Hc. reflexivity.
Qed.

(** C9.  The inline flag is monotone down the recursion.  Take a call of
    [processTag] with the flag on and any call [(n, ctx, b)] below it, at any
    depth, [callsBelow] following the loop of [processTag] from children to
    their children.  Then [b] is on.  And the calls that the loop makes for
    [n] are those that [callsChild] lists, all with the flag on: [processTag]
    returns for [n] what its loop and rule return when the calls on the
    children go to any function [g] that agrees with [processTag] on those
    calls; so also to any [g] that agrees with [processTag] on the calls with
    the flag on, whatever [g] does with the flag off. *)
Theorem inline_flag_stays_on
  (o : options) (c : call) (n : node) (ctx : context) (b : bool) :
  callsBelow c (n, ctx, b) ->
  snd c = true ->
  b = true
  /\ (forall g : node -> context -> bool -> result string,
        (forall child cctx b',
            callsChild (n, ctx, b) (child, cctx, b') ->
            g child cctx b' = processTag o child cctx b') ->
        processTag o n ctx b
        = (text <- foldChildren o g (asParent n) ctx
                     (shouldRemoveWhitespaceInside (tagName n))
                     (convertChildrenAsInline (lowerTag n) b)
                     [] (childNodes n) EmptyString ;;
           applyRule o n ctx (lowerTag n) text b))
  /\ (forall g : node -> context -> bool -> result string,
        (forall child cctx, g child cctx true = processTag o child cctx true) ->
        processTag o n ctx b
        = (text <- foldChildren o g (asParent n) ctx
                     (shouldRemoveWhitespaceInside (tagName n))
                     (convertChildrenAsInline (lowerTag n) b)
                     [] (childNodes n) EmptyString ;;
           applyRule o n ctx (lowerTag n) text b)).
Proof.
  intros Hbelow Hc.
  assert (Hb : b = true) by exact (callsBelow_flag c (n, ctx, b) Hbelow Hc).
  assert (Hlink : forall g : node -> context -> bool -> result string,
             (forall child cctx b',
                 callsChild (n, ctx, b) (child, cctx, b') ->
                 g child cctx b' = processTag o child cctx b') ->
             processTag o n ctx b
             = (text <- foldChildren o g (asParent n) ctx
                          (shouldRemoveWhitespaceInside (tagName n))
                          (convertChildrenAsInline (lowerTag n) b)
                          [] (childNodes n) EmptyString ;;
                applyRule o n ctx (lowerTag n) text b)).
  { intros g Hg. rewrite processTag_unfold.
    now rewrite (foldChildren_calls o g (processTag o) n ctx b Hg (childNodes n) []
                   EmptyString eq_refl). }
  split; [exact Hb|]. split; [exact Hlink|].
  intros g Hg. apply Hlink. intros child cctx b' Hcall.
  assert (Hb' : b' = true).
  { apply (callsBelow_flag c (child, cctx, b')); [|exact Hc].
    clear - Hbelow Hcall. induction Hbelow as [c | c d e Hstep _ IH].
    - eapply callsBelow_step; [exact Hcall | apply callsBelow_here].
    - eapply callsBelow_step; [exact Hstep | now apply IH]. }
  subst b'. apply Hg.
Qed.

(** The instance of C9 at a paragraph inside a [div] that is converted
    inline: the loop of the paragraph calls [processTag] for its [b] with the
    flag on. *)
Lemma inline_flag_stays_on_witness :
  convertChildrenAsInline "div" true = true
  /\ (forall g : node -> context -> bool -> result string,
        (forall child cctx b',
            callsChild (elem "p" [elem "b" [Text "x"]],
                        [mkFrame (PElement "div" []) [] []],
                        convertChildrenAsInline "div" true)
                       (child, cctx, b') ->
            g child cctx b' = processTag defaults child cctx b') ->
        processTag defaults (elem "p" [elem "b" [Text "x"]])
          [mkFrame (PElement "div" []) [] []] (convertChildrenAsInline "div" true)
        = (text <- foldChildren defaults g (PElement "p" [])
                     [mkFrame (PElement "div" []) [] []]
                     (shouldRemoveWhitespaceInside (Some "p"))
                     (convertChildrenAsInline "p" (convertChildrenAsInline "div" true))
                     [] [elem "b" [Text "x"]] EmptyString ;;
           applyRule defaults (elem "p" [elem "b" [Text "x"]])
             [mkFrame (PElement "div" []) [] []] "p" text
             (convertChildrenAsInline "div" true)))
  /\ (forall g : node -> context -> bool -> result string,
        (forall child cctx, g child cctx true = processTag defaults child cctx true) ->
        processTag defaults (elem "p" [elem "b" [Text "x"]])
          [mkFrame (PElement "div" []) [] []] (convertChildrenAsInline "div" true)
        = (text <- foldChildren defaults g (PElement "p" [])
                     [mkFrame (PElement "div" []) [] []]
                     (shouldRemoveWhitespaceInside (Some "p"))
                     (convertChildrenAsInline "p" (convertChildrenAsInline "div" true))
                     [] [elem "b" [Text "x"]] EmptyString ;;
           applyRule defaults (elem "p" [elem "b" [Text "x"]])
             [mkFrame (PElement "div" []) [] []] "p" text
             (convertChildrenAsInline "div" true))).
Proof.
  apply (inline_flag_stays_on defaults
           (elem "div" [elem "p" [elem "b" [Text "x"]]], [], true)
           (elem "p" [elem "b" [Text "x"]])
           [mkFrame (PElement "div" []) [] []]
           (convertChildrenAsInline "div" true)).
  - eapply callsBelow_step; [|apply callsBelow_here].
    apply (callsChild_intro (elem "div" [elem "p" [elem "b" [Text "x"]]]) [] true
             [] (elem "p" [elem "b" [Text "x"]]) []);
      [reflexivity | reflexivity | discriminate].
  - reflexivity.
Defined.

(* ================================================================== *)
(** ** The constructor *)
(* ================================================================== *)


(* ================================================================== *)
(** ** Headings *)
(* ================================================================== *)

Lemma stripStart_all (p : ascii -> bool) (s : string) :
  all_in p s = true -> stripStart p s = EmptyString.
Proof.
  induction s as [|c r IH]; simpl; [reflexivity|].
  intros H. apply andb_true_iff in H as [Hc Hr]. rewrite Hc. now apply IH.
Qed.

Lemma trim_whitespaceOnly (s : string) : whitespaceOnly s = true -> trim s = EmptyString.
Proof.
  intros H. unfold trim, trimStart. now rewrite (stripStart_all _ _ H).
Qed.

(** C10.  An [h1] or [h2] whose children convert to a text that is empty or
    white space only, under the underlined heading style, outside inline
    context and with the tag among those to convert, is converted to the
    empty string: by the rule [_convert_hn] and so by [processTag].  Under the
    ATX style the rule still returns the line of hashes between blank
    lines. *)
Theorem empty_underlined_heading_is_empty
  (o : options) (t : string) (attrs : list (string * string)) (cs : list node)
  (ctx : context) (text : string) :
  toLowerCase t = "h1" \/ toLowerCase t = "h2" ->
  heading_style o = UNDERLINED ->
  shouldConvertTag o (toLowerCase t) = Ok true ->
  foldChildren o (processTag o) (PElement t attrs) ctx
    (shouldRemoveWhitespaceInside (Some t))
    (convertChildrenAsInline (toLowerCase t) false) [] cs EmptyString = Ok text ->
  whitespaceOnly text = true ->
  processTag o (Element t attrs cs) ctx false = Ok EmptyString
  /\ (forall n, n = 1%nat \/ n = 2%nat ->
        _convert_hn o n (Element t attrs cs) ctx text false = EmptyString)
  /\ (forall o' n, heading_style o' = ATX -> (1 <= n <= 6)%nat ->
        _convert_hn o' n (Element t attrs cs) ctx text false
        = nl ++ nl ++ repeat_string "#" n ++ " " ++ nl ++ nl).
Proof.
  intros Htag Hstyle Hconv Hfold Hws.
  assert (Hrule : forall n, n = 1%nat \/ n = 2%nat ->
            _convert_hn o n (Element t attrs cs) ctx text false = EmptyString).
  { intros n Hn. unfold _convert_hn. rewrite Hstyle, (trim_whitespaceOnly _ Hws).
    destruct Hn as [-> | ->]; reflexivity. }
  split; [|split; [exact Hrule|]].
  - rewrite processTag_unfold.
    assert (Ht : truthy t = true).
    { destruct t; [destruct Htag; discriminate | reflexivity]. }
    cbn [asParent tagName lowerTag childNodes]. rewrite Ht, Hfold. cbn [bind].
    unfold applyRule. rewrite Hconv.
    destruct Htag as [E | E]; rewrite E.
    + change (ruleFor "h1") with (@None rule).
      change (headingLevel "h1") with (Some 1%nat).
      cbv iota. cbn [bind]. cbv iota. f_equal. apply Hrule. now left.
    + change (ruleFor "h2") with (@None rule).
      change (headingLevel "h2") with (Some 2%nat).
      cbv iota. cbn [bind]. cbv iota. f_equal. apply Hrule. now right.
  - intros o' n Hatx Hn. unfold _convert_hn. rewrite Hatx, (trim_whitespaceOnly _ Hws).
    replace (Nat.max 1 (Nat.min 6 n)) with n by lia.
    change (toLowerCase ATX) with ATX.
    change (String.eqb ATX UNDERLINED) with false.
    change (String.eqb ATX ATX_CLOSED) with false.
    reflexivity.
Qed.

(** The instance of C10 at an [h1] that holds a [span] with one space. *)
Lemma empty_underlined_heading_is_empty_witness :
  processTag defaults (Element "h1" [] [elem "span" [Text " "]]) [] false = Ok EmptyString
  /\ (forall n, n = 1%nat \/ n = 2%nat ->
        _convert_hn defaults n (Element "h1" [] [elem "span" [Text " "]]) [] " " false
        = EmptyString)
  /\ (forall o' n, heading_style o' = ATX -> (1 <= n <= 6)%nat ->
        _convert_hn o' n (Element "h1" [] [elem "span" [Text " "]]) [] " " false
        = nl ++ nl ++ repeat_string "#" n ++ " " ++ nl ++ nl).
Proof.
  apply (empty_underlined_heading_is_empty defaults "h1" [] [elem "span" [Text " "]] [] " ");
    [left; reflexivity | reflexivity | reflexivity | reflexivity | reflexivity].
Defined.

(* ================================================================== *)
(** ** Text inside code *)
(* ================================================================== *)

Lemma countChar_append (x : ascii) (a b : string) :
  countChar x (a ++ b) = (countChar x a + countChar x b)%nat.
Proof. induction a as [|c r IH]; simpl; [reflexivity | rewrite IH; lia]. Qed.

Lemma collapseRuns_count (x : ascii) (p : ascii -> bool) (by_ : string) (s : string) :
  countChar x by_ = 0%nat ->
  forall inRun, (countChar x (collapseRuns p by_ inRun s) <= countChar x s)%nat.
Proof.
  intros Hby. induction s as [|c r IH]; intros inRun; simpl; [lia|].
  destruct (p c).
  - rewrite countChar_append. specialize (IH true).
    destruct inRun; simpl; lia.
  - simpl. specialize (IH false). lia.
Qed.

Lemma collapseNewlineRuns_count (x : ascii) (s : string) :
  Ascii.eqb LF x = false ->
  forall inMatch, (countChar x (collapseNewlineRuns inMatch s) <= countChar x s)%nat.
Proof.
  intros Hx. induction s as [|c r IH]; intros inMatch; [simpl; lia|].
  cbn [collapseNewlineRuns]. destruct (isWs4 c).
  - destruct inMatch.
    + specialize (IH true). cbn [countChar]. lia.
    + destruct (runHasNewline (String c r)).
      * specialize (IH true). cbn [countChar]. rewrite Hx. lia.
      * specialize (IH false). cbn [countChar]. lia.
  - specialize (IH false). cbn [countChar]. lia.
Qed.

Lemma stripStart_count (x : ascii) (p : ascii -> bool) (s : string) :
  (countChar x (stripStart p s) <= countChar x s)%nat.
Proof.
  induction s as [|c r IH]; simpl; [lia|].
  destruct (p c); simpl; lia.
Qed.

Lemma stripEnd_count (x : ascii) (p : ascii -> bool) (s : string) :
  (countChar x (stripEnd p s) <= countChar x s)%nat.
Proof.
  induction s as [|c r IH]; simpl; [lia|].
  destruct (p c && all_in p r); simpl; lia.
Qed.

(** C8.  For a text node with a [pre], [code], [kbd] or [samp] ancestor the
    escaper is not applied: [processText] returns the same text whatever the
    options [escape_asterisks], [escape_underscores] and [escape_misc] are
    (any two option records with the same [wrap] agree), and the text it
    returns has no more backslashes than the node's value. *)
Theorem code_text_is_not_escaped (o o' : options) (nodeValue : string) (ctx : context) :
  findAncestor ctx codeTags = true ->
  wrap o' = wrap o ->
  processText o' nodeValue ctx = processText o nodeValue ctx
  /\ (countChar BSLASH (processText o nodeValue ctx) <= countChar BSLASH nodeValue)%nat.
Proof.
  intros Hcode Hwrap. unfold processText. rewrite Hcode, Hwrap. cbn [negb].
  split; [reflexivity|].
  set (t := if negb (findAncestor ctx ["pre"]) then _ else nodeValue).
  assert (Ht : (countChar BSLASH t <= countChar BSLASH nodeValue)%nat).
  { subst t. destruct (negb (findAncestor ctx ["pre"])); [|lia].
    destruct (wrap o).
    - now apply collapseRuns_count.
    - etransitivity; [now apply collapseRuns_count|].
      now apply collapseNewlineRuns_count. }
  clearbody t.
  match goal with
  | |- context [if ?c then stripStart isSpace t else t] =>
      set (u := if c then stripStart isSpace t else t);
      assert (Hu : (countChar BSLASH u <= countChar BSLASH t)%nat)
        by (subst u; destruct c; [apply stripStart_count | lia])
  end.
  clearbody u.
  match goal with
  | |- context [if ?c then stripEnd isSpace u else u] =>
      destruct c; [pose proof (stripEnd_count BSLASH isSpace u)|]; lia
  end.
Qed.

(** The instance of C8 at the text of a [code] element inside a paragraph,
    with all escapes on against the defaults. *)
Lemma code_text_is_not_escaped_witness :
  processText
    (assign defaults
       (mkOverrides None None None None None None (Some true) (Some true) (Some true)
                    None None None None None None None None None None None))
    "a_b * c" [mkFrame (PElement "code" []) [] []; mkFrame (PElement "p" []) [] []]
  = processText defaults "a_b * c"
      [mkFrame (PElement "code" []) [] []; mkFrame (PElement "p" []) [] []]
  /\ (countChar BSLASH
        (processText defaults "a_b * c"
           [mkFrame (PElement "code" []) [] []; mkFrame (PElement "p" []) [] []])
      <= countChar BSLASH "a_b * c")%nat.
Proof.
  apply (code_text_is_not_escaped defaults
           (assign defaults
              (mkOverrides None None None None None None (Some true) (Some true) (Some true)
                           None None None None None None None None None None None))
           "a_b * c" [mkFrame (PElement "code" []) [] []; mkFrame (PElement "p" []) [] []]);
    reflexivity.
Defined.

(* ================================================================== *)
(** ** Lists *)
(* ================================================================== *)






(** A list that a text follows: the text is the next block-content sibling,
    and the rule, which asks that sibling for a tag name, adds no line feed.
    The statement of C6 above leaves this case out. *)
Lemma convert_list_before_text :
  nextBlockContentSibling [mkFrame (PElement "div" []) [] [Text "z"]] = Some (Text "z")
  /\ convert_list defaults (Element "ul" [] [elem "li" [Text "a"]])
       [mkFrame (PElement "div" []) [] [Text "z"]] ("* a" ++ nl) false
     = nl ++ nl ++ "* a" ++ nl
  /\ convert_ defaults (elem "div" [elem "ul" [elem "li" [Text "a"]]; Text "z"]) []
     = Ok (nl ++ nl ++ "* a" ++ nl ++ "z" ++ nl ++ nl).
Proof. split; [|split]; reflexivity. Qed.

(* ================================================================== *)
(** ** Links *)
(* ================================================================== *)

(** C4, as the code has it.  An [a] element outside [pre], [code], [kbd] and
    [samp] whose text, trimmed and with escaped underscores restored, is not
    empty and equals its [href], without title (none or an empty one), under
    options with [autolinks] on and [default_title] off, is converted to the
    [href] between angle brackets.  So is the link with [href] x and text x
    under the default options. *)
Theorem convert_a_autolink
  (o : options) (a : node) (ctx : context) (text href : string) (convertAsInline : bool) :
  findAncestor ctx codeTags = false ->
  autolinks o = true ->
  default_title o = false ->
  getAttribute a "href" = Some href ->
  getAttribute a "title" = None \/ getAttribute a "title" = Some EmptyString ->
  trim text <> EmptyString ->
  unescapeUnderscore (trim text) = href ->
  convert_a o a ctx text convertAsInline = "<" ++ href ++ ">"
  /\ markdownify (Element "a" [("href", "x")] [Text "x"]) [] noOverrides = Returned "<x>".
Proof.
  intros Hctx Hauto Hdef Hhref Htitle Hne Heq. split; [|reflexivity].
  unfold convert_a, chomp. rewrite Hctx, Hauto, Hdef, Hhref.
  destruct (trim text) eqn:Ht; [congruence|]. cbn [truthy negb].
  rewrite Heq, String.eqb_refl.
  destruct Htitle as [-> | ->]; reflexivity.
Qed.

(** The instance of C4 at a link whose text carries an escaped underscore
    and spaces around it. *)
Lemma convert_a_autolink_witness :
  convert_a defaults (Element "a" [("href", "a_b")] [Text " a_b "]) [] " a\_b " false
  = "<" ++ "a_b" ++ ">"
  /\ markdownify (Element "a" [("href", "x")] [Text "x"]) [] noOverrides = Returned "<x>".
Proof.
  apply (convert_a_autolink defaults (Element "a" [("href", "a_b")] [Text " a_b "]) []
           " a\_b " "a_b" false);
    [reflexivity | reflexivity | reflexivity | reflexivity | left; reflexivity
    | discriminate | reflexivity].
Defined.

(** C4 as stated fails: with [autolinks] on and [default_title] on as well,
    the link with [href] x and text x is not an autolink; the [href] becomes
    its title. *)
Lemma convert_a_default_title_wins :
  autolinks withDefaultTitle = true
  /\ convert_a withDefaultTitle (Element "a" [("href", "x")] [Text "x"]) [] "x" false
     = "[x](x " ++ String DQUOTE ("x" ++ String DQUOTE ")")
  /\ convert_a withDefaultTitle (Element "a" [("href", "x")] [Text "x"]) [] "x" false
     <> "<x>"
  /\ convert_ withDefaultTitle (Element "a" [("href", "x")] [Text "x"]) []
     = Ok ("[x](x " ++ String DQUOTE ("x" ++ String DQUOTE ")")).
Proof.
  split; [reflexivity|]. split; [reflexivity|]. split; [discriminate | reflexivity].
Qed.

(* ================================================================== *)
(** ** Table rows *)
(* ================================================================== *)

Lemma totalColspan_nonneg (cells : list node) : (0 <= totalColspan cells)%Z.
Proof.
  induction cells as [|c r IH]; simpl; [lia|].
  unfold colspanValue. destruct (colspanOf c) as [k|]; [|lia].
  destruct (0 <=? k)%Z eqn:E; [apply Z.leb_le in E|]; lia.
Qed.

(** The sum that [convert_tr] folds is the total of the cells' colspans
    when each of them is usable. *)
Lemma fullColspan_total (cells : list node) :
  (forall cell, In cell cells -> colspanValue cell <> None) ->
  forall a : Z,
    fold_left (fun sum cell => add sum (colspanOf cell)) cells (Num a)
    = Num (a + totalColspan cells).
Proof.
  induction cells as [|c r IH]; intros Hall a; simpl.
  - f_equal. lia.
  - assert (Hc : colspanValue c <> None) by (apply Hall; now left).
    unfold colspanValue in *. destruct (colspanOf c) as [k|]; [|congruence].
    destruct (0 <=? k)%Z; [|congruence].
    cbn [add]. rewrite IH by (intros cell Hin; apply Hall; now right).
    f_equal. lia.
Qed.

Lemma headRowMissing_placed (row : node) (ctx : context) :
  rowPlaced ctx -> exists b, headRowMissing row ctx true = Ok b.
Proof.
  unfold rowPlaced, headRowMissing. destruct ctx as [|f up]; [eauto|].
  destruct (parent f) as [t a|]; [|contradiction].
  intros Hup. destruct (String.eqb_spec (toLowerCase t) "tbody") as [E|E]; cbn [negb];
    [|eauto].
  destruct up; [now specialize (Hup E) | eauto].
Qed.

Lemma built_fits (s : string) : fitsString s -> built s = Ok s.
Proof.
  unfold fitsString, built. intros H.
  destruct (maxStringLength <? _)%Z eqn:E; [apply Z.ltb_lt in E; lia | reflexivity].
Qed.

Lemma built_too_long (s : string) :
  (maxStringLength < Z.of_nat (String.length s))%Z -> built s = Throw RangeError.
Proof.
  unfold built. intros H.
  destruct (maxStringLength <? _)%Z eqn:E; [reflexivity | apply Z.ltb_ge in E; lia].
Qed.

Lemma fitsString_shorter (a b : string) :
  (String.length a <= String.length b)%nat -> fitsString b -> fitsString a.
Proof. unfold fitsString. lia. Qed.

Lemma length_join_repeat_S (sep x : string) (n : nat) :
  String.length (join sep (List.repeat x (S n)))
  = (String.length x + n * (String.length sep + String.length x))%nat.
Proof.
  induction n as [|n IH]; [cbn [List.repeat join Nat.mul]; lia|].
  change (List.repeat x (S (S n))) with (x :: List.repeat x (S n)).
  change (join sep (x :: List.repeat x (S n)))
    with (x ++ sep ++ join sep (List.repeat x (S n))).
  rewrite !length_append, IH. cbn [Nat.mul]. lia.
Qed.

Lemma length_join_repeat (sep x : string) (n : nat) :
  (1 <= n)%nat ->
  String.length (join sep (List.repeat x n))
  = (n * String.length x + (n - 1) * String.length sep)%nat.
Proof.
  intros Hn. destruct n as [|n]; [lia|].
  rewrite length_join_repeat_S.
  replace (S n - 1)%nat with n by lia. nia.
Qed.

Lemma length_separatorLine (n : nat) :
  String.length (separatorLine n)
  = (5 + String.length (join " | " (List.repeat "---" n)))%nat.
Proof.
  unfold separatorLine, nl. rewrite !length_append. cbn [String.length]. lia.
Qed.

Lemma separatorLine_columns (n : nat) : (n <= String.length (separatorLine n))%nat.
Proof.
  rewrite length_separatorLine. destruct n as [|n]; [lia|].
  rewrite length_join_repeat_S. cbn [String.length]. lia.
Qed.

Lemma Array_fill_length (z : Z) (x : string) :
  (0 <= z < 2 ^ 32)%Z -> Array_fill (Num z) x = Ok (List.repeat x (Z.to_nat z)).
Proof.
  intros [H0 H1]. unfold Array_fill.
  destruct (z <? 0)%Z eqn:E1; [apply Z.ltb_lt in E1; lia|].
  destruct (2 ^ 32 <=? z)%Z eqn:E2; [apply Z.leb_le in E2; lia | reflexivity].
Qed.

(** The branch of [convert_tr] that writes the separator line, for a first
    row that is a head row with usable colspans. *)
Lemma convert_tr_head_branch
  (o : options) (row : node) (ctx : context) (text : string) (convertAsInline : bool) :
  previousElementSibling ctx = None ->
  isHeadRow row ctx ->
  rowPlaced ctx ->
  (forall cell, In cell (cellsOf row) -> colspanValue cell <> None) ->
  convert_tr o row ctx text convertAsInline
  = (segments <- Array_fill (Num (totalColspan (cellsOf row))) "---" ;;
     line <- built (join " | " segments) ;;
     underline <- built ("| " ++ line ++ " |" ++ nl) ;;
     built ("|" ++ text ++ nl ++ underline)).
Proof.
  intros Hfirst Hhead Hplaced Hcells.
  unfold convert_tr. fold (cellsOf row). rewrite Hfirst. cbn [isSet negb].
  destruct (headRowMissing_placed row ctx Hplaced) as [b ->]. cbn [bind].
  assert (Hb : forallb (hasTag "th") (cellsOf row)
               || parentHasTag "thead" ctx
                  && match parentNode row ctx with
                     | Some (p, _) => (List.length (children p) =? 1)%nat
                     | None => false
                     end = true).
  { destruct Hhead as [H | (H & p & up & Hp & Hlen)].
    - now rewrite H.
    - rewrite H, Hp, Hlen. apply orb_true_r. }
  rewrite Hb. cbn [orb andb].
  rewrite (fullColspan_total _ Hcells 0). cbn [Z.add]. reflexivity.
Qed.

(** The separator line of [total] segments and the row before it, when the
    engine can hold them. *)
Lemma separator_branch_fits (total : Z) (text : string) :
  (0 <= total)%Z ->
  fitsString ("|" ++ text ++ nl ++ separatorLine (Z.to_nat total)) ->
  (segments <- Array_fill (Num total) "---" ;;
   line <- built (join " | " segments) ;;
   underline <- built ("| " ++ line ++ " |" ++ nl) ;;
   built ("|" ++ text ++ nl ++ underline))
  = Ok ("|" ++ text ++ nl ++ separatorLine (Z.to_nat total)).
Proof.
  intros Hpos Hfits.
  assert (Hmax : (maxStringLength < 2 ^ 32)%Z) by reflexivity.
  pose proof (separatorLine_columns (Z.to_nat total)) as Hcols.
  assert (Hlen : (String.length (separatorLine (Z.to_nat total))
                  <= String.length ("|" ++ text ++ nl ++ separatorLine (Z.to_nat total)))%nat)
    by (rewrite !length_append; lia).
  assert (Hsep : fitsString (separatorLine (Z.to_nat total)))
    by (eapply fitsString_shorter; [exact Hlen | exact Hfits]).
  assert (Hline : fitsString (join " | " (List.repeat "---" (Z.to_nat total)))).
  { eapply fitsString_shorter; [|exact Hsep]. rewrite length_separatorLine. lia. }
  rewrite Array_fill_length by (unfold fitsString in Hsep; lia).
  cbn [bind]. rewrite (built_fits _ Hline). cbn [bind].
  fold (separatorLine (Z.to_nat total)).
  rewrite (built_fits _ Hsep). cbn [bind]. now apply built_fits.
Qed.

(** A separator line that the engine cannot hold: the row raises a
    [RangeError]. *)
Lemma convert_tr_separator_too_long
  (o : options) (row : node) (ctx : context) (text : string) (convertAsInline : bool) :
  previousElementSibling ctx = None ->
  isHeadRow row ctx ->
  rowPlaced ctx ->
  (forall cell, In cell (cellsOf row) -> colspanValue cell <> None) ->
  (maxStringLength < 6 * totalColspan (cellsOf row) - 3)%Z ->
  convert_tr o row ctx text convertAsInline = Throw RangeError.
Proof.
  intros Hfirst Hhead Hplaced Hcells Hlong.
  rewrite (convert_tr_head_branch o row ctx text convertAsInline Hfirst Hhead Hplaced Hcells).
  set (total := totalColspan (cellsOf row)) in *.
  unfold Array_fill.
  destruct ((total <? 0) || (2 ^ 32 <=? total))%Z; [reflexivity|].
  cbn [bind]. rewrite built_too_long; [reflexivity|].
  assert (Hmax : (0 < maxStringLength)%Z) by reflexivity.
  rewrite length_join_repeat by lia.
  cbn [String.length]. lia.
Qed.

(** C3, as the code has it.  For a row without element before it that is a
    head row, placed under an element (and under a [tbody] only if that has
    a parent), whose cells all have a usable colspan (none, an empty one, or
    a decimal numeral that is not negative), and whose output (the bar, the
    text of the cells, a line feed and the separator line with as many
    segments as the total colspan) is a string the engine can hold,
    [convert_tr] returns that output.  So the table with one row of two [th]
    cells is, under the default options, the row and the separator of two
    segments. *)
Theorem convert_tr_head_row
  (o : options) (row : node) (ctx : context) (text : string) (convertAsInline : bool) :
  previousElementSibling ctx = None ->
  isHeadRow row ctx ->
  rowPlaced ctx ->
  (forall cell, In cell (cellsOf row) -> colspanValue cell <> None) ->
  fitsString ("|" ++ text ++ nl ++ separatorLine (Z.to_nat (totalColspan (cellsOf row)))) ->
  convert_tr o row ctx text convertAsInline
  = Ok ("|" ++ text ++ nl ++ separatorLine (Z.to_nat (totalColspan (cellsOf row))))
  /\ markdownify (elem "table" [elem "tr" [elem "th" [Text "a"]; elem "th" [Text "b"]]]) []
       noOverrides
     = Returned (nl ++ nl ++ "| a | b |" ++ nl ++ "| --- | --- |" ++ nl ++ nl).
Proof.
  intros Hfirst Hhead Hplaced Hcells Hfits. split; [|reflexivity].
  rewrite (convert_tr_head_branch o row ctx text convertAsInline Hfirst Hhead Hplaced Hcells).
  apply separator_branch_fits; [apply totalColspan_nonneg | exact Hfits].
Qed.

(** The instance of C3 at a row of a [th] spanning two columns and a plain
    [th], the only row of its table. *)
Lemma convert_tr_head_row_witness :
  convert_tr defaults
    (elem "tr" [Element "th" [("colspan", "2")] [Text "a"]; elem "th" [Text "b"]])
    [mkFrame (PElement "table" []) [] []] " a | | b |" false
  = Ok ("|" ++ " a | | b |" ++ nl
        ++ separatorLine
             (Z.to_nat
                (totalColspan
                   (cellsOf (elem "tr" [Element "th" [("colspan", "2")] [Text "a"];
                                      elem "th" [Text "b"]])))))
  /\ markdownify (elem "table" [elem "tr" [elem "th" [Text "a"]; elem "th" [Text "b"]]]) []
       noOverrides
     = Returned (nl ++ nl ++ "| a | b |" ++ nl ++ "| --- | --- |" ++ nl ++ nl).
Proof.
  apply (convert_tr_head_row defaults
           (elem "tr" [Element "th" [("colspan", "2")] [Text "a"]; elem "th" [Text "b"]])
           [mkFrame (PElement "table" []) [] []] " a | | b |" false).
  - reflexivity.
  - left. reflexivity.
  - simpl. discriminate.
  - intros cell [<- | [<- | []]]; discriminate.
  - apply Z.leb_le. reflexivity.
Defined.

(** C3 as stated fails, in two ways.  A head row whose cell has a negative
    colspan has no separator line: asking for an array of negative length is
    a [RangeError], and so is the conversion of the table (there the cell's
    own rule raises it first).  And a head row whose cell spans a hundred
    million columns has none either: the separator line would be longer than
    the longest string, and joining its segments is a [RangeError]. *)
Lemma convert_tr_colspan_out_of_range :
  previousElementSibling [mkFrame (PElement "table" []) [] []] = None
  /\ forallb (hasTag "th") (cellsOf (elem "tr" [Element "th" [("colspan", "-1")] [Text "a"]]))
     = true
  /\ convert_tr defaults (elem "tr" [Element "th" [("colspan", "-1")] [Text "a"]])
       [mkFrame (PElement "table" []) [] []] " a |" false
     = Throw RangeError
  /\ markdownify (elem "table" [elem "tr" [Element "th" [("colspan", "-1")] [Text "a"]]]) []
       noOverrides
     = Raised RangeError
  /\ forallb (hasTag "th")
       (cellsOf (elem "tr" [Element "th" [("colspan", "100000000")] [Text "a"]]))
     = true
  /\ totalColspan (cellsOf (elem "tr" [Element "th" [("colspan", "100000000")] [Text "a"]]))
     = 100000000%Z
  /\ convert_tr defaults (elem "tr" [Element "th" [("colspan", "100000000")] [Text "a"]])
       [mkFrame (PElement "table" []) [] []] " a |" false
     = Throw RangeError.
Proof.
  do 6 (split; [reflexivity|]).
  apply convert_tr_separator_too_long.
  - reflexivity.
  - left. reflexivity.
  - simpl. discriminate.
  - intros cell [<- | []]; discriminate.
  - reflexivity.
Qed.

(** A row that follows a [caption] is not a first row for [convert_tr]: it
    gets neither separator nor empty header. *)
Lemma convert_tr_after_caption :
  markdownify
    (elem "table" [elem "caption" [Text "c"]; elem "tr" [elem "th" [Text "a"]; elem "th" [Text "b"]]])
    [] noOverrides
  = Returned (nl ++ nl ++ "c" ++ nl ++ nl ++ "| a | b |" ++ nl ++ nl).
Proof. reflexivity. Qed.

(* ================================================================== *)
(** ** Numeric attributes *)
(* ================================================================== *)

(** C2 fails on the code.  The test [!Number.isNaN(v)] lets every string
    through, so a [start] or [colspan] that is not a numeral reaches
    [parseInt] and comes back as NaN instead of counting as absent: the list
    item is numbered NaN where the item without [start] is numbered 1; the
    body cell loses its bar where the cell without [colspan] has one; and the
    head row raises a [RangeError] where the row without [colspan] is
    converted. *)
Theorem non_numeric_attribute_is_not_absent :
  startNumber (Some "abc") = NaN
  /\ startNumber None = Num 1
  /\ markdownify (Element "ol" [("start", "abc")] [elem "li" [Text "x"]]) [] noOverrides
     = Returned (nl ++ nl ++ "NaN. x" ++ nl)
  /\ markdownify (elem "ol" [elem "li" [Text "x"]]) [] noOverrides
     = Returned (nl ++ nl ++ "1. x" ++ nl)
  /\ convert_td defaults (Element "td" [("colspan", "abc")] [Text "a"]) [] "a" true
     = Ok " a"
  /\ convert_td defaults (elem "td" [Text "a"]) [] "a" true = Ok " a |"
  /\ markdownify (elem "table" [elem "tr" [Element "th" [("colspan", "abc")] [Text "a"]]]) []
       noOverrides
     = Raised RangeError
  /\ markdownify (elem "table" [elem "tr" [elem "th" [Text "a"]]]) [] noOverrides
     = Returned (nl ++ nl ++ "| a |" ++ nl ++ "| --- |" ++ nl ++ nl).
Proof. repeat (split; [reflexivity|]). reflexivity. Qed.

(* ================================================================== *)
(** ** List items *)
(* ================================================================== *)

(** C7 fails on the code.  A list item whose parent is not an [ol] and that
    has no [ul] above it (an item of a [menu], an item in a [div]) has depth
    -1; the remainder of -1 by the length of the bullets is -1 (the sign of
    the dividend), no character of the bullets has that index, and the
    bullet is printed as the word undefined.  The character at index
    (-1 mod 3) of the default bullets is the hyphen. *)
Theorem li_outside_ul_has_no_bullet :
  ulDepth (elem "li" [Text "x"]) [mkFrame (PElement "menu" []) [] []] = (-1)%Z
  /\ liBullet defaults (elem "li" [Text "x"]) [mkFrame (PElement "menu" []) [] []]
     = "undefined"
  /\ String.get (Z.to_nat ((-1) mod 3)) (bullets defaults) = Some "-"%char
  /\ markdownify (elem "menu" [elem "li" [Text "x"]]) [] noOverrides
     = Returned ("undefined x" ++ nl)
  /\ markdownify (elem "div" [elem "li" [Text "x"]]) [] noOverrides
     = Returned (nl ++ nl ++ "undefined x" ++ nl ++ nl).
Proof. repeat (split; [reflexivity|]). reflexivity. Qed.

Lemma get_none_length (s : string) (n : nat) :
  String.get n s = None -> (String.length s <= n)%nat.
Proof.
  revert n. induction s as [|c r IH]; intros n; simpl; [lia|].
  destruct n as [|n]; [discriminate|]. intros H. apply IH in H. lia.
Qed.

(** Inside the bullets the index is the depth modulo their number. *)
Lemma bulletChar_in_range (bullets : string) (depth : Z) :
  (0 <= depth)%Z -> bullets <> EmptyString ->
  exists c,
    String.get (Z.to_nat (depth mod Z.of_nat (String.length bullets))) bullets = Some c
    /\ bulletChar bullets depth = String c EmptyString.
Proof.
  intros Hd Hb. unfold bulletChar.
  assert (Hlen : (0 < Z.of_nat (String.length bullets))%Z).
  { destruct bullets; [congruence | cbn [String.length]; lia]. }
  destruct (Z.of_nat (String.length bullets) =? 0)%Z eqn:E0; [apply Z.eqb_eq in E0; lia|].
  rewrite Z.rem_mod_nonneg by lia.
  pose proof (Z.mod_pos_bound depth _ Hlen) as Hm.
  destruct (_ <? 0)%Z eqn:E1; [apply Z.ltb_lt in E1; lia|].
  destruct (String.get _ bullets) as [c|] eqn:G; [eauto|].
  apply get_none_length in G. lia.
Qed.

(** X1.  The bullet of an item of an [ol]: the number of the [start]
    attribute, or 1 without it, plus the number of [li] elements before the
    item, and a full stop (for numbers in the range where [Num] is exact). *)
Theorem liBullet_ordered
  (o : options) (li : node) (t : string) (attrs : list (string * string))
  (before after : list node) (up : context) (n : Z) :
  isLi li = true ->
  toLowerCase t = "ol" ->
  (lookup "start" attrs = None /\ n = 1%Z)
  \/ (exists s, lookup "start" attrs = Some s /\ s <> EmptyString /\ parseInt10 s = Num n) ->
  (Z.abs n + Z.of_nat (List.length (filter isLi before)) < 2 ^ 53)%Z ->
  liBullet o li (mkFrame (PElement t attrs) before after :: up)
  = numberToString (Num (n + Z.of_nat (List.length (filter isLi before)))) ++ ".".
Proof.
  intros Hli Hol Hstart _. unfold liBullet. cbn [parent].
  assert (Ht : truthy t = true) by (destruct t; [discriminate Hol | reflexivity]).
  rewrite Ht, Hol, Hli. cbn [andb].
  change (String.eqb "ol" "ol") with true. cbv iota.
  destruct Hstart as [[-> ->] | (s & -> & Hs & Hn)]; unfold startNumber.
  - reflexivity.
  - destruct s; [congruence|]. cbn [truthy Number_isNaN_string negb andb].
    rewrite Hn. reflexivity.
Qed.

(** The instance at the second item of a list that starts at 3. *)
Lemma liBullet_ordered_witness :
  liBullet defaults (elem "li" [Text "y"])
    (mkFrame (PElement "ol" [("start", "3")]) [elem "li" [Text "x"]] [] :: [])
  = numberToString (Num (3 + Z.of_nat (List.length (filter isLi [elem "li" [Text "x"]]))))
    ++ ".".
Proof.
  apply (liBullet_ordered defaults (elem "li" [Text "y"]) "ol" [("start", "3")]
           [elem "li" [Text "x"]] [] [] 3%Z);
    [reflexivity | reflexivity | right; exists "3"; repeat split; discriminate
    | reflexivity].
Defined.

(** X2.  The bullet of an item whose parent is not an [ol], with some [ul]
    above it and bullets to choose from: the character of the bullets at the
    depth modulo their number. *)
Theorem liBullet_unordered (o : options) (li : node) (ctx : context) :
  parentHasTag "ol" ctx = false ->
  (0 <= ulDepth li ctx)%Z ->
  bullets o <> EmptyString ->
  exists c,
    String.get (Z.to_nat (ulDepth li ctx mod Z.of_nat (String.length (bullets o))))
               (bullets o) = Some c
    /\ liBullet o li ctx = String c EmptyString.
Proof.
  intros Hol Hd Hb.
  destruct (bulletChar_in_range (bullets o) (ulDepth li ctx) Hd Hb) as (c & Hc & Hbc).
  exists c. split; [exact Hc|].
  unfold liBullet. unfold parentHasTag, parentTagName in Hol.
  destruct ctx as [|f up]; [exact Hbc|].
  destruct (parent f) as [t attrs|]; [|exact Hbc].
  rewrite Hol. exact Hbc.
Qed.

(** The instance at an item of a list nested in an item of a list. *)
Lemma liBullet_unordered_witness :
  exists c,
    String.get
      (Z.to_nat
         (ulDepth (elem "li" [Text "x"])
            [mkFrame (PElement "ul" []) [] []; mkFrame (PElement "li" []) [] [];
             mkFrame (PElement "ul" []) [] []]
          mod Z.of_nat (String.length (bullets defaults))))
      (bullets defaults) = Some c
    /\ liBullet defaults (elem "li" [Text "x"])
         [mkFrame (PElement "ul" []) [] []; mkFrame (PElement "li" []) [] [];
          mkFrame (PElement "ul" []) [] []]
       = String c EmptyString.
Proof.
  apply (liBullet_unordered defaults (elem "li" [Text "x"])
           [mkFrame (PElement "ul" []) [] []; mkFrame (PElement "li" []) [] [];
            mkFrame (PElement "ul" []) [] []]);
    [reflexivity | discriminate | discriminate].
Defined.

(* ================================================================== *)
(** ** The fuel of the marker replacement *)
(* ================================================================== *)

Lemma span_length (p : ascii -> bool) (s run rest : string) :
  span p s = (run, rest) ->
  String.length s = (String.length run + String.length rest)%nat.
Proof.
  revert run rest. induction s as [|c r IH]; intros run rest; simpl.
  - intros [= <- <-]. reflexivity.
  - destruct (p c).
    + destruct (span p r) as [run' rest'] eqn:E. intros [= <- <-].
      simpl. f_equal. now apply IH.
    + intros [= <- <-]. reflexivity.
Qed.

Lemma markerEnd_length (s w rest : string) :
  markerEnd s = Some (w, rest) -> (String.length rest <= String.length s)%nat.
Proof.
  destruct s as [|c r]; simpl.
  - intros [= <- <-]. simpl. lia.
  - destruct (isSpace c); [intros [= <- <-]; lia | discriminate].
Qed.

Lemma truthy_length (s : string) : truthy s = true -> (0 < String.length s)%nat.
Proof. destruct s; [discriminate | simpl; lia]. Qed.

Lemma hyphenMarker_consuming : consuming hyphenMarker.
Proof.
  intros s pre post rest. unfold hyphenMarker.
  destruct (span _ s) as [run r] eqn:E. apply span_length in E.
  destruct (truthy run) eqn:T; [|discriminate]. apply truthy_length in T.
  destruct (markerEnd r) as [[w r']|] eqn:M; [|discriminate].
  apply markerEnd_length in M. intros [= _ _ <-]. lia.
Qed.

Lemma hashMarker_consuming : consuming hashMarker.
Proof.
  intros s pre post rest. unfold hashMarker.
  destruct (span _ s) as [run r] eqn:E. apply span_length in E.
  destruct (truthy run) eqn:T; [|discriminate]. apply truthy_length in T.
  destruct (_ <=? 6)%nat; [|discriminate]. cbn [andb].
  destruct (markerEnd r) as [[w r']|] eqn:M; [|discriminate].
  apply markerEnd_length in M. intros [= _ _ <-]. lia.
Qed.

Lemma ordinalMarker_consuming : consuming ordinalMarker.
Proof.
  intros s pre post rest. unfold ordinalMarker.
  destruct (span _ s) as [run r] eqn:E. apply span_length in E.
  destruct (truthy run) eqn:T; [|discriminate]. apply truthy_length in T.
  destruct (_ <=? 9)%nat; [|discriminate]. cbn [andb].
  destruct r as [|c r1]; [discriminate|].
  destruct (_ || _); [|discriminate].
  destruct (markerEnd r1) as [[w r']|] eqn:M; [|discriminate].
  apply markerEnd_length in M. intros [= _ _ <-]. simpl in E. lia.
Qed.

Lemma markerAt_consuming (m : marker) (atStart : bool) (s g1 g2 rest : string) :
  consuming m -> markerAt m atStart s = Some (g1, g2, rest) ->
  (String.length rest < String.length s)%nat.
Proof.
  intros Hm. unfold markerAt. destruct s as [|c r].
  - destruct atStart; [apply Hm | discriminate].
  - destruct (isSpace c).
    + destruct (m r) as [[[pre post] rest']|] eqn:E.
      * intros [= _ _ <-]. apply Hm in E. simpl. lia.
      * destruct atStart; [apply Hm | discriminate].
    + destruct atStart; [apply Hm | discriminate].
Qed.

(** The replacement does not depend on the fuel once the fuel is above the
    length of the string: the fuel given by [replaceMarkers] is enough. *)
Lemma escapeMarkers_fuel (m : marker) :
  consuming m ->
  forall (n : nat) (s : string) (atStart : bool) (fuel fuel' : nat),
    (String.length s <= n)%nat ->
    (String.length s < fuel)%nat -> (String.length s < fuel')%nat ->
    escapeMarkers m fuel atStart s = escapeMarkers m fuel' atStart s.
Proof.
  intros Hm n. induction n as [|n IH]; intros s atStart fuel fuel' Hn Hf Hf'.
  - destruct s; [|simpl in Hn; lia].
    destruct fuel, fuel'; reflexivity.
  - destruct fuel as [|fuel]; [lia|]. destruct fuel' as [|fuel']; [lia|].
    cbn [escapeMarkers]. destruct s as [|c r]; [reflexivity|].
    destruct (markerAt m atStart (String c r)) as [[[g1 g2] rest]|] eqn:E.
    + apply (markerAt_consuming m atStart _ g1 g2 rest Hm) in E.
      rewrite (IH rest false fuel fuel') by (simpl in *; lia). reflexivity.
    + rewrite (IH r false fuel fuel') by (simpl in *; lia). reflexivity.
Qed.

(* ================================================================== *)
(** ** The escaper only inserts backslashes *)
(* ================================================================== *)

Lemma insertsOnly_refl (c : ascii) (s : string) : insertsOnly c s s.
Proof. induction s; constructor; assumption. Qed.

Lemma insertsOnly_append (c : ascii) (s t s' t' : string) :
  insertsOnly c s t -> insertsOnly c s' t' -> insertsOnly c (s ++ s') (t ++ t').
Proof.
  intros H H'. induction H; simpl; [exact H' | now constructor | now constructor].
Qed.

Lemma insertsOnly_trans (c : ascii) (s t u : string) :
  insertsOnly c s t -> insertsOnly c t u -> insertsOnly c s u.
Proof.
  intros Hst Htu. revert s Hst.
  induction Htu as [| x t u Htu IH | t u Htu IH]; intros s Hst.
  - exact Hst.
  - inversion Hst; subst.
    + constructor. now apply IH.
    + apply insertsOnly_add. now apply IH.
  - apply insertsOnly_add. now apply IH.
Qed.

Lemma insertsOnly_length (c : ascii) (s t : string) :
  insertsOnly c s t -> (String.length s <= String.length t)%nat.
Proof. induction 1; simpl; lia. Qed.

Lemma replaceChar_inserts (x : ascii) (s : string) :
  insertsOnly BSLASH s (replaceChar x (String BSLASH (String x EmptyString)) s).
Proof.
  induction s as [|d r IH]; cbn [replaceChar]; [constructor|].
  destruct (Ascii.eqb_spec d x) as [->|_]; cbn [append].
  - apply insertsOnly_add. now constructor.
  - now constructor.
Qed.

Lemma replaceClass_inserts (p : ascii -> bool) (s : string) :
  insertsOnly BSLASH s
    (replaceClass p (fun c => String BSLASH (String c EmptyString)) s).
Proof.
  induction s as [|d r IH]; cbn [replaceClass]; [constructor|].
  destruct (p d); cbn [append].
  - apply insertsOnly_add. now constructor.
  - now constructor.
Qed.

Lemma span_append (p : ascii -> bool) (s run rest : string) :
  span p s = (run, rest) -> s = run ++ rest.
Proof.
  revert run rest. induction s as [|c r IH]; intros run rest; simpl.
  - intros [= <- <-]. reflexivity.
  - destruct (p c).
    + destruct (span p r) as [run' rest'] eqn:E. intros [= <- <-].
      simpl. f_equal. now apply IH.
    + intros [= <- <-]. reflexivity.
Qed.

Lemma markerEnd_append (s w rest : string) :
  markerEnd s = Some (w, rest) -> s = w ++ rest.
Proof.
  destruct s as [|c r]; simpl.
  - intros [= <- <-]. reflexivity.
  - destruct (isSpace c); [intros [= <- <-]; reflexivity | discriminate].
Qed.

Lemma hyphenMarker_splitting : splitting hyphenMarker.
Proof.
  intros s pre post rest. unfold hyphenMarker.
  destruct (span _ s) as [run r] eqn:E. apply span_append in E.
  destruct (truthy run); [|discriminate].
  destruct (markerEnd r) as [[w r']|] eqn:M; [|discriminate].
  apply markerEnd_append in M. intros [= <- <- <-]. subst s r.
  cbn [append]. now rewrite append_assoc.
Qed.

Lemma hashMarker_splitting : splitting hashMarker.
Proof.
  intros s pre post rest. unfold hashMarker.
  destruct (span _ s) as [run r] eqn:E. apply span_append in E.
  destruct (truthy run && _); [|discriminate].
  destruct (markerEnd r) as [[w r']|] eqn:M; [|discriminate].
  apply markerEnd_append in M. intros [= <- <- <-]. subst s r.
  cbn [append]. now rewrite append_assoc.
Qed.

Lemma ordinalMarker_splitting : splitting ordinalMarker.
Proof.
  intros s pre post rest. unfold ordinalMarker.
  destruct (span _ s) as [run r] eqn:E. apply span_append in E.
  destruct (truthy run && _); [|discriminate].
  destruct r as [|c r1]; [discriminate|].
  destruct (_ || _); [|discriminate].
  destruct (markerEnd r1) as [[w r']|] eqn:M; [|discriminate].
  apply markerEnd_append in M. intros [= <- <- <-]. subst s r1.
  reflexivity.
Qed.

Lemma markerAt_splitting (m : marker) (atStart : bool) (s g1 g2 rest : string) :
  splitting m -> markerAt m atStart s = Some (g1, g2, rest) -> s = g1 ++ g2 ++ rest.
Proof.
  intros Hm. unfold markerAt. destruct s as [|c r].
  - destruct atStart; [apply Hm | discriminate].
  - destruct (isSpace c).
    + destruct (m r) as [[[pre post] rest']|] eqn:E.
      * intros [= <- <- <-]. apply Hm in E. subst r. reflexivity.
      * destruct atStart; [apply Hm | discriminate].
    + destruct atStart; [apply Hm | discriminate].
Qed.

Lemma escapeMarkers_inserts (m : marker) :
  splitting m ->
  forall (fuel : nat) (atStart : bool) (s : string),
    insertsOnly BSLASH s (escapeMarkers m fuel atStart s).
Proof.
  intros Hm fuel. induction fuel as [|fuel IH]; intros atStart s;
    [apply insertsOnly_refl|].
  cbn [escapeMarkers]. destruct s as [|c r]; [constructor|].
  destruct (markerAt m atStart (String c r)) as [[[g1 g2] rest]|] eqn:E.
  - apply (markerAt_splitting m atStart _ g1 g2 rest Hm) in E. rewrite E.
    apply insertsOnly_append; [apply insertsOnly_refl|].
    apply insertsOnly_add.
    apply insertsOnly_append; [apply insertsOnly_refl | apply IH].
  - constructor. apply IH.
Qed.

Lemma escape_inserts (o : options) (text : string) :
  insertsOnly BSLASH text (escape o text).
Proof.
  unfold escape. destruct text as [|c r]; [constructor|]. cbn [truthy negb].
  set (t := String c r).
  set (t1 := if escape_misc o then _ else t).
  assert (H1 : insertsOnly BSLASH t t1).
  { subst t1. destruct (escape_misc o); [|apply insertsOnly_refl].
    unfold replaceMarkers.
    eapply insertsOnly_trans; [apply replaceClass_inserts|].
    eapply insertsOnly_trans;
      [apply (escapeMarkers_inserts _ hyphenMarker_splitting)|].
    eapply insertsOnly_trans;
      [apply (escapeMarkers_inserts _ hashMarker_splitting)|].
    apply (escapeMarkers_inserts _ ordinalMarker_splitting). }
  clearbody t1.
  set (t2 := if escape_asterisks o then _ else t1).
  assert (H2 : insertsOnly BSLASH t1 t2).
  { subst t2. destruct (escape_asterisks o);
      [apply replaceChar_inserts | apply insertsOnly_refl]. }
  clearbody t2.
  destruct (escape_underscores o).
  - eapply insertsOnly_trans; [exact H1|].
    eapply insertsOnly_trans; [exact H2 | apply replaceChar_inserts].
  - eapply insertsOnly_trans; [exact H1 | exact H2].
Qed.

(** X3.  Whatever the options, the escaper changes a text only by inserting
    backslashes: every character of the text is kept, in its order, and
    every character added is a backslash; so the text never gets shorter. *)
Theorem escape_only_inserts_backslashes (o : options) (text : string) :
  insertsOnly BSLASH text (escape o text)
  /\ (String.length text <= String.length (escape o text))%nat.
Proof.
  split; [apply escape_inserts|].
  apply (insertsOnly_length BSLASH). apply escape_inserts.
Qed.

(* ================================================================== *)
(** ** Text without white space; escaped underscores and autolinks *)
(* ================================================================== *)

Lemma noneIn_weaken (p q : ascii -> bool) (s : string) :
  (forall c, q c = true -> p c = true) -> noneIn p s = true -> noneIn q s = true.
Proof.
  intros Hqp. unfold noneIn. induction s as [|c r IH]; simpl; [reflexivity|].
  intros H. apply andb_true_iff in H as [Hc Hr]. rewrite (IH Hr), andb_true_r.
  destruct (q c) eqn:Q; [|reflexivity]. now rewrite (Hqp c Q) in Hc.
Qed.

Lemma noneIn_append (p : ascii -> bool) (a b : string) :
  noneIn p (a ++ b) = noneIn p a && noneIn p b.
Proof. apply all_in_append. Qed.

Lemma isWs4_isSpace (c : ascii) : isWs4 c = true -> isSpace c = true.
Proof.
  unfold isWs4, isSpace.
  destruct (Ascii.eqb c TAB), (Ascii.eqb c LF), (Ascii.eqb c CR), (Ascii.eqb c SP);
    simpl; intros H; try reflexivity; try discriminate H;
    repeat rewrite orb_true_r; reflexivity.
Qed.

Lemma isBlank_isSpace (c : ascii) : isBlank c = true -> isSpace c = true.
Proof.
  unfold isBlank, isSpace.
  destruct (Ascii.eqb c TAB), (Ascii.eqb c SP);
    simpl; intros H; try reflexivity; try discriminate H;
    repeat rewrite orb_true_r; reflexivity.
Qed.

Lemma collapseRuns_noneIn (p : ascii -> bool) (by_ : string) (s : string) :
  noneIn p s = true -> forall inRun, collapseRuns p by_ inRun s = s.
Proof.
  unfold noneIn. induction s as [|c r IH]; simpl; intros H inRun; [reflexivity|].
  apply andb_true_iff in H as [Hc Hr]. apply negb_true_iff in Hc.
  rewrite Hc. now rewrite IH.
Qed.

Lemma collapseNewlineRuns_noneIn (s : string) :
  noneIn isWs4 s = true -> forall inMatch, collapseNewlineRuns inMatch s = s.
Proof.
  unfold noneIn. induction s as [|c r IH]; intros H inMatch; [reflexivity|].
  cbn [all_in] in H. apply andb_true_iff in H as [Hc Hr]. apply negb_true_iff in Hc.
  cbn [collapseNewlineRuns]. rewrite Hc. now rewrite IH.
Qed.

Lemma stripStart_noneIn (p : ascii -> bool) (s : string) :
  noneIn p s = true -> stripStart p s = s.
Proof.
  unfold noneIn. destruct s as [|c r]; simpl; [reflexivity|].
  intros H. apply andb_true_iff in H as [Hc _]. apply negb_true_iff in Hc.
  now rewrite Hc.
Qed.

Lemma stripEnd_noneIn (p : ascii -> bool) (s : string) :
  noneIn p s = true -> stripEnd p s = s.
Proof.
  unfold noneIn. induction s as [|c r IH]; simpl; [reflexivity|].
  intros H. apply andb_true_iff in H as [Hc Hr]. apply negb_true_iff in Hc.
  rewrite Hc. cbn [andb]. now rewrite IH.
Qed.

Lemma trim_noneIn (s : string) : noneIn isSpace s = true -> trim s = s.
Proof.
  intros H. unfold trim, trimStart, trimEnd.
  rewrite (stripStart_noneIn _ _ H). now apply stripEnd_noneIn.
Qed.

Lemma insertsOnly_noneIn (p : ascii -> bool) (c : ascii) (s t : string) :
  p c = false -> insertsOnly c s t -> noneIn p s = true -> noneIn p t = true.
Proof.
  intros Hc H. unfold noneIn. induction H as [| x s t H IH | s t H IH]; simpl.
  - reflexivity.
  - intros Hs. apply andb_true_iff in Hs as [Hx Hs]. now rewrite Hx, IH.
  - intros Hs. now rewrite Hc, IH.
Qed.

Lemma replaceChar_absent (x : ascii) (by_ : string) (s : string) :
  countChar x s = 0%nat -> replaceChar x by_ s = s.
Proof.
  induction s as [|d r IH]; simpl; [reflexivity|].
  destruct (Ascii.eqb d x); [discriminate|]. intros H. simpl. now rewrite IH.
Qed.

Lemma findAncestor_pre_code (ctx : context) :
  findAncestor ctx codeTags = false -> findAncestor ctx ["pre"] = false.
Proof.
  unfold findAncestor. induction ctx as [|f up IH]; cbn [existsb]; [reflexivity|].
  intros H. apply orb_false_iff in H as [Hf Hup]. rewrite (IH Hup), orb_false_r.
  destruct (parent f) as [t a|]; [|reflexivity].
  unfold includes, codeTags in *. cbn [existsb] in *.
  apply orb_false_iff in Hf as [Hf _]. now rewrite Hf.
Qed.

Lemma processText_noneIn (o : options) (nodeValue : string) (ctx : context) :
  noneIn isSpace nodeValue = true ->
  findAncestor ctx codeTags = false ->
  processText o nodeValue ctx = escape o nodeValue.
Proof.
  intros Hws Hcode.
  unfold processText. rewrite Hcode, (findAncestor_pre_code ctx Hcode). cbn [negb].
  assert (H4 : noneIn isWs4 nodeValue = true)
    by (apply (noneIn_weaken isSpace); [apply isWs4_isSpace | exact Hws]).
  assert (Hb : noneIn isBlank nodeValue = true)
    by (apply (noneIn_weaken isSpace); [apply isBlank_isSpace | exact Hws]).
  assert (Hpre : (if wrap o then collapseRuns isWs4 " " false nodeValue
                  else collapseRuns isBlank " " false
                         (collapseNewlineRuns false nodeValue)) = nodeValue).
  { destruct (wrap o).
    - now apply collapseRuns_noneIn.
    - rewrite (collapseNewlineRuns_noneIn _ H4). now apply collapseRuns_noneIn. }
  rewrite Hpre.
  assert (He : noneIn isSpace (escape o nodeValue) = true).
  { apply (insertsOnly_noneIn isSpace BSLASH nodeValue);
      [reflexivity | apply escape_inserts | exact Hws]. }
  rewrite (stripStart_noneIn _ _ He).
  match goal with
  | |- context [if ?c then escape o nodeValue else escape o nodeValue] =>
      replace (if c then escape o nodeValue else escape o nodeValue)
        with (escape o nodeValue) by (destruct c; reflexivity)
  end.
  rewrite (stripEnd_noneIn _ _ He).
  match goal with |- (if ?c then _ else _) = _ => destruct c; reflexivity end.
Qed.

(** X4.  A text node without white space, outside [pre], [code], [kbd] and
    [samp], is converted to its escaped value, whatever its siblings and
    parent are; without [escape_misc] and without asterisk and underscore in
    it, it is converted to itself. *)
Theorem processText_word (o : options) (nodeValue : string) (ctx : context) :
  noneIn isSpace nodeValue = true ->
  findAncestor ctx codeTags = false ->
  processText o nodeValue ctx = escape o nodeValue
  /\ (escape_misc o = false ->
      countChar "*" nodeValue = 0%nat -> countChar "_" nodeValue = 0%nat ->
      processText o nodeValue ctx = nodeValue).
Proof.
  intros Hws Hcode.
  pose proof (processText_noneIn o nodeValue ctx Hws Hcode) as Hesc.
  split; [exact Hesc|].
  intros Hmisc Hast Hund. rewrite Hesc. unfold escape. rewrite Hmisc.
  destruct nodeValue as [|c r]; [reflexivity|]. cbn [truthy negb].
  destruct (escape_asterisks o), (escape_underscores o);
    rewrite ?(replaceChar_absent _ _ _ Hast), ?(replaceChar_absent _ _ _ Hund);
    reflexivity.
Qed.

(** The instance of X4 at a word with an underscore, the only child of a
    paragraph. *)
Lemma processText_word_witness :
  processText defaults "snake_case" [mkFrame (PElement "p" []) [] []]
  = escape defaults "snake_case"
  /\ (escape_misc defaults = false ->
      countChar "*" "snake_case" = 0%nat -> countChar "_" "snake_case" = 0%nat ->
      processText defaults "snake_case" [mkFrame (PElement "p" []) [] []]
      = "snake_case").
Proof.
  apply (processText_word defaults "snake_case" [mkFrame (PElement "p" []) [] []]);
    reflexivity.
Defined.

Lemma escaped_underscore_head (r : string) (d : ascii) (r' : string) :
  replaceChar "_" (String BSLASH "_") r = String d r' -> Ascii.eqb d "_" = false.
Proof.
  destruct r as [|c r0]; [discriminate|]. cbn [replaceChar].
  destruct (Ascii.eqb c "_") eqn:E; cbn [append]; intros [= <- _]; [reflexivity | exact E].
Qed.

(** The un-escaping of [convert_a] undoes the escaping of underscores. *)
Lemma unescapeUnderscore_escaped (s : string) :
  unescapeUnderscore (replaceChar "_" (String BSLASH "_") s) = s.
Proof.
  induction s as [|c r IH]; [reflexivity|].
  cbn [replaceChar]. destruct (Ascii.eqb_spec c "_") as [->|Hc]; cbn [append].
  - cbn [unescapeUnderscore]. change (Ascii.eqb BSLASH BSLASH && Ascii.eqb "_" "_") with true.
    cbv iota. now rewrite IH.
  - cbn [unescapeUnderscore].
    destruct (replaceChar "_" (String BSLASH "_") r) as [|d r'] eqn:E.
    + destruct r as [|c0 r0]; [reflexivity|]. cbn [replaceChar] in E.
      destruct (Ascii.eqb c0 "_"); discriminate E.
    + rewrite (escaped_underscore_head r d r' E), andb_false_r.
      now rewrite IH.
Qed.

Lemma unescape_escape (o : options) (text : string) :
  escape_underscores o = true ->
  escape_misc o = false ->
  escape_asterisks o = false \/ countChar "*" text = 0%nat ->
  unescapeUnderscore (escape o text) = text.
Proof.
  intros Hund Hmisc Hast. unfold escape. rewrite Hund, Hmisc.
  destruct text as [|c r]; [reflexivity|]. cbn [truthy negb].
  assert (H : (if escape_asterisks o
               then replaceChar "*" (String BSLASH "*") (String c r)
               else String c r) = String c r).
  { destruct Hast as [-> | H0]; [reflexivity|].
    destruct (escape_asterisks o); [now apply replaceChar_absent | reflexivity]. }
  rewrite H. apply unescapeUnderscore_escaped.
Qed.

(** X5.  Escaping and un-escaping underscores is a round trip: under
    options that escape underscores, do not escape the miscellany, and
    either do not escape asterisks or meet none, the replacement that
    [convert_a] applies to its text gives back the text that was escaped. *)
Theorem unescape_after_escape (o : options) (text : string) :
  escape_underscores o = true ->
  escape_misc o = false ->
  escape_asterisks o = false \/ countChar "*" text = 0%nat ->
  unescapeUnderscore (escape o text) = text.
Proof. exact (unescape_escape o text). Qed.

(** The instance of X5 at a text with a backslash before an underscore
    already in it. *)
Lemma unescape_after_escape_witness :
  unescapeUnderscore (escape defaults "a\_b__c") = "a\_b__c".
Proof.
  apply (unescape_after_escape defaults "a\_b__c");
    [reflexivity | reflexivity | right; reflexivity].
Defined.

Lemma escape_nonempty (o : options) (text : string) :
  text <> EmptyString -> escape o text <> EmptyString.
Proof.
  intros Hne He. pose proof (insertsOnly_length _ _ _ (escape_inserts o text)) as H.
  rewrite He in H. destruct text; [congruence | simpl in H; lia].
Qed.

(** X6.  A link whose only child is a text node equal to its [href], the
    [href] being non-empty and without white space, and which has no title,
    is converted to the [href] between angle brackets: under options with
    [autolinks] on, [default_title] off, underscores escaped, the miscellany
    not escaped and asterisks either not escaped or absent from the [href],
    outside [pre], [code], [kbd] and [samp], with the tag among those
    converted.  The underscores that the escaper protects do not prevent the
    autolink. *)
Theorem autolink_end_to_end
  (o : options) (t : string) (attrs : list (string * string)) (href : string)
  (ctx : context) (convertAsInline : bool) :
  toLowerCase t = "a" ->
  lookup "href" attrs = Some href ->
  lookup "title" attrs = None \/ lookup "title" attrs = Some EmptyString ->
  href <> EmptyString ->
  noneIn isSpace href = true ->
  escape_asterisks o = false \/ countChar "*" href = 0%nat ->
  escape_underscores o = true ->
  escape_misc o = false ->
  autolinks o = true ->
  default_title o = false ->
  shouldConvertTag o "a" = Ok true ->
  findAncestor ctx codeTags = false ->
  processTag o (Element t attrs [Text href]) ctx convertAsInline
  = Ok ("<" ++ href ++ ">").
Proof.
  intros Htag Hhref Htitle Hne Hws Hast Hund Hmisc Hauto Hdef Hconv Hctx.
  assert (Ht : truthy t = true) by (destruct t; [discriminate Htag | reflexivity]).
  rewrite processTag_unfold. cbn [childNodes asParent tagName lowerTag].
  rewrite Ht, Htag. cbn [foldChildren canIgnore hd_error].
  rewrite (trim_noneIn _ Hws).
  destruct (String.eqb_spec href EmptyString) as [E|_]; [congruence|]. cbn [negb].
  assert (Hctx' : findAncestor (mkFrame (PElement t attrs) [] [] :: ctx) codeTags = false).
  { unfold findAncestor in *. cbn [existsb parent]. now rewrite Htag, Hctx. }
  rewrite (processText_noneIn o href _ Hws Hctx'). cbn [append bind].
  unfold applyRule. change (ruleFor "a") with (Some (pure convert_a)). rewrite Hconv.
  unfold pure. f_equal.
  assert (He : noneIn isSpace (escape o href) = true).
  { apply (insertsOnly_noneIn isSpace BSLASH href);
      [reflexivity | apply escape_inserts | exact Hws]. }
  unfold convert_a, chomp. rewrite Hctx, Hauto, Hdef, (trim_noneIn _ He).
  cbn [getAttribute]. rewrite Hhref.
  assert (Htr : truthy (escape o href) = true).
  { destruct (escape o href) eqn:Ee; [now apply escape_nonempty in Ee | reflexivity]. }
  rewrite Htr. cbn [negb].
  rewrite (unescape_escape o href Hund Hmisc Hast), String.eqb_refl.
  destruct Htitle as [-> | ->]; reflexivity.
Qed.

(** The instance of X6 at a link to an address with underscores. *)
Lemma autolink_end_to_end_witness :
  processTag defaults
    (Element "A" [("href", "http://a.b/c_d_e")] [Text "http://a.b/c_d_e"]) [] false
  = Ok ("<" ++ "http://a.b/c_d_e" ++ ">").
Proof.
  apply (autolink_end_to_end defaults "A" [("href", "http://a.b/c_d_e")]
           "http://a.b/c_d_e" [] false);
    [reflexivity | reflexivity | left; reflexivity | discriminate | reflexivity
    | right; reflexivity | reflexivity | reflexivity | reflexivity | reflexivity
    | reflexivity | reflexivity].
Defined.

(* ================================================================== *)
(** ** The merge of children is a monoid *)
(* ================================================================== *)

Lemma startsWith_append (b r : string) (c : ascii) :
  b <> EmptyString -> startsWith (b ++ r) c = startsWith b c.
Proof. destruct b; [congruence | reflexivity]. Qed.

Lemma endsWith_append (p b : string) (c : ascii) :
  b <> EmptyString -> endsWith (p ++ b) c = endsWith b c.
Proof.
  intros Hb. induction p as [|x p IH]; [reflexivity|].
  cbn [append]. rewrite endsWith_cons; [exact IH|].
  destruct p; [exact Hb | discriminate].
Qed.

(** A text is a run of line feeds, or a run, a core that neither starts nor
    ends with a line feed, and a run. *)
Lemma newline_runs_split (y : string) :
  (exists m, y = repeat_string nl m)
  \/ (exists i b j,
        y = repeat_string nl i ++ b ++ repeat_string nl j
        /\ b <> EmptyString /\ startsWith b LF = false /\ endsWith b LF = false).
Proof.
  pose proof (stripStart_newlines y) as Hy.
  pose proof (stripStart_no_leading y) as Hy'.
  set (i := (String.length y - String.length (stripStart isLF y))%nat) in *.
  set (y' := stripStart isLF y) in *.
  pose proof (stripEnd_newlines y') as Hb.
  pose proof (stripEnd_no_trailing y') as Hb'.
  set (j := (String.length y' - String.length (stripEnd isLF y'))%nat) in *.
  set (b := stripEnd isLF y') in *.
  destruct b as [|c r] eqn:Eb.
  - left. exists i. rewrite Hy. cbn [append] in Hb.
    destruct j as [|j]; [|rewrite Hb in Hy'; discriminate Hy'].
    cbn in Hb. rewrite Hb. now rewrite append_nil_r.
  - right. exists i, (String c r), j. rewrite Hy at 1. rewrite Hb at 1.
    repeat split; [discriminate | | exact Hb'].
    rewrite Hb in Hy'. exact Hy'.
Qed.

(** X7.  The merge that [processTag] applies to the texts of element
    children is associative and has the empty text as unit on both sides:
    merging a sequence of texts gives the same result however the merges are
    grouped. *)
Theorem mergeChild_monoid (x y z : string) :
  mergeChild EmptyString x = x
  /\ mergeChild x EmptyString = x
  /\ mergeChild (mergeChild x y) z = mergeChild x (mergeChild y z).
Proof.
  split; [|split].
  - unfold mergeChild. cbn [stripEnd String.length Nat.sub Nat.max append].
    symmetry. apply stripStart_newlines.
  - unfold mergeChild. cbn [stripStart String.length Nat.sub].
    rewrite Nat.max_0_r, append_nil_r. symmetry. apply stripEnd_newlines.
  - rewrite (stripEnd_newlines x). rewrite (stripStart_newlines z).
    set (a := stripEnd isLF x).
    set (k := (String.length x - String.length a)%nat).
    set (c := stripStart isLF z).
    set (l := (String.length z - String.length c)%nat).
    assert (Ha : endsWith a LF = false) by apply stripEnd_no_trailing.
    assert (Hc : startsWith c LF = false) by apply stripStart_no_leading.
    clearbody a k c l.
    destruct (newline_runs_split y) as [[m ->] | (i & b & j & -> & Hne & Hs & He)].
    + replace (repeat_string nl m) with (repeat_string nl m ++ EmptyString) at 1
        by apply append_nil_r.
      rewrite (mergeChild_runs a EmptyString k m Ha eq_refl), append_nil_r.
      rewrite (mergeChild_runs a c _ l Ha Hc).
      change (repeat_string nl m) with (EmptyString ++ repeat_string nl m).
      rewrite (mergeChild_runs EmptyString c m l eq_refl Hc). cbn [append].
      rewrite (mergeChild_runs a c k _ Ha Hc).
      now rewrite Nat.max_assoc.
    + assert (Hs' : forall r, startsWith (b ++ r) LF = false)
        by (intros r; now rewrite startsWith_append).
      assert (He' : forall p, endsWith (p ++ b) LF = false)
        by (intros p; now rewrite endsWith_append).
      rewrite (mergeChild_runs a (b ++ repeat_string nl j) k i Ha (Hs' _)).
      replace (a ++ repeat_string nl (Nat.max k i) ++ b ++ repeat_string nl j)
        with ((a ++ repeat_string nl (Nat.max k i) ++ b) ++ repeat_string nl j)
        by now rewrite !append_assoc.
      rewrite (mergeChild_runs _ c j l); [|rewrite <- append_assoc; apply He' | exact Hc].
      replace (repeat_string nl i ++ b ++ repeat_string nl j)
        with ((repeat_string nl i ++ b) ++ repeat_string nl j)
        by now rewrite !append_assoc.
      rewrite (mergeChild_runs _ c j l (He' _) Hc).
      rewrite (append_assoc (repeat_string nl i) b).
      rewrite (mergeChild_runs a _ k i Ha (Hs' _)).
      now rewrite !append_assoc.
Qed.

(* ================================================================== *)
(** ** The rules that cannot raise an error *)
(* ================================================================== *)







(* ================================================================== *)
(** ** Table cells and the rows that are not head rows *)
(* ================================================================== *)

Lemma countChar_replaced (x : ascii) (by_ : string) (s : string) :
  countChar x by_ = 0%nat -> countChar x (replaceChar x by_ s) = 0%nat.
Proof.
  intros Hby. induction s as [|d r IH]; cbn [replaceChar]; [reflexivity|].
  rewrite countChar_append, IH.
  destruct (Ascii.eqb d x) eqn:E; [lia|]. cbn [countChar]. rewrite E. reflexivity.
Qed.

Lemma countChar_repeat_string (x : ascii) (s : string) (k : nat) :
  countChar x s = 0%nat -> countChar x (repeat_string s k) = 0%nat.
Proof.
  intros Hs. induction k as [|k IH]; [reflexivity|].
  cbn [repeat_string]. rewrite countChar_append. lia.
Qed.

(** X9.  What [convert_td] and [convert_th] return holds no line feed: the
    line feeds of the cell's text become spaces, so a cell never breaks the
    line of its row, whatever its colspan. *)
Theorem table_cell_is_one_line
  (o : options) (cell : node) (ctx : context) (text : string) (convertAsInline : bool)
  (out : string) :
  convert_td o cell ctx text convertAsInline = Ok out
  \/ convert_th o cell ctx text convertAsInline = Ok out ->
  countChar LF out = 0%nat
  /\ exists pipes, out = " " ++ replaceChar LF " " (trim text) ++ pipes
                   /\ repeat " |" (colspanOf cell) = Ok pipes.
Proof.
  unfold convert_th. intros H. assert (H' : convert_td o cell ctx text convertAsInline = Ok out)
    by (destruct H; assumption).
  clear H. unfold convert_td in H'.
  destruct (repeat " |" (colspanOf cell)) as [pipes|e] eqn:Hp; [|discriminate].
  cbn [bind] in H'. unfold built in H'.
  destruct (maxStringLength <? _)%Z; [discriminate|]. injection H' as <-.
  split; [|exists pipes; split; reflexivity].
  cbn [append countChar]. change (Ascii.eqb " " LF) with false.
  rewrite countChar_append, (countChar_replaced LF " " _ eq_refl).
  unfold repeat in Hp. destruct (colspanOf cell) as [z|].
  - destruct (z <? 0)%Z; [discriminate|].
    destruct (maxStringLength <? _)%Z; [discriminate|]. injection Hp as <-.
    now rewrite (countChar_repeat_string LF " |" _ eq_refl).
  - injection Hp as <-. reflexivity.
Qed.

(** The instance of X9 at a cell of two lines that spans two columns. *)
Lemma table_cell_is_one_line_witness :
  countChar LF (" a b | |") = 0%nat
  /\ exists pipes,
       " a b | |" = " " ++ replaceChar LF " " (trim (" a" ++ nl ++ "b ")) ++ pipes
       /\ repeat " |" (colspanOf (Element "td" [("colspan", "2")] [])) = Ok pipes.
Proof.
  apply (table_cell_is_one_line defaults (Element "td" [("colspan", "2")] []) []
           (" a" ++ nl ++ "b ") true " a b | |").
  left. reflexivity.
Defined.

(** The truth value [isHeadRow] of [convert_tr] says that the row is a head
    row. *)
Lemma isHeadRow_value (row : node) (ctx : context) :
  isHeadRow row ctx
  <-> forallb (hasTag "th") (cellsOf row)
      || parentHasTag "thead" ctx
         && match parentNode row ctx with
            | Some (p, _) => (List.length (children p) =? 1)%nat
            | None => false
            end = true.
Proof.
  unfold isHeadRow. split.
  - intros [H | (H & p & up & Hp & Hlen)].
    + now rewrite H.
    + rewrite H, Hp, Hlen. apply orb_true_r.
  - intros H. apply orb_true_iff in H as [H | H]; [now left|].
    apply andb_true_iff in H as [H1 H2]. right. split; [exact H1|].
    destruct (parentNode row ctx) as [[p up]|]; [|discriminate].
    exists p, up. split; [reflexivity|]. now apply Nat.eqb_eq.
Qed.

(** X10.  A row that has an element before it under its parent is
    converted to a bar, the text of its cells and a line feed: no header and
    no separator line, no error, whatever the options, its cells and the
    place of its parent. *)
Theorem convert_tr_later_row
  (o : options) (row : node) (ctx : context) (text : string) (convertAsInline : bool)
  (p : node) :
  previousElementSibling ctx = Some p ->
  convert_tr o row ctx text convertAsInline = Ok ("|" ++ text ++ nl).
Proof.
  intros Hp. unfold convert_tr. rewrite Hp. cbn [isSet negb headRowMissing bind].
  rewrite andb_false_r. cbn [andb structurallyFirst bind]. reflexivity.
Qed.

(** The instance of X10 at the second row of a table that has a head row. *)
Lemma convert_tr_later_row_witness :
  convert_tr defaults (elem "tr" [elem "td" [Text "1"]])
    [mkFrame (PElement "table" []) [elem "tr" [elem "th" [Text "a"]]] []] " 1 |" false
  = Ok ("|" ++ " 1 |" ++ nl).
Proof.
  apply (convert_tr_later_row defaults (elem "tr" [elem "td" [Text "1"]])
           [mkFrame (PElement "table" []) [elem "tr" [elem "th" [Text "a"]]] []]
           " 1 |" false (elem "tr" [elem "th" [Text "a"]])).
  reflexivity.
Defined.

(** X11.  A first row that is no head row and whose parent is an element
    other than [tbody]: without [table_infer_header] it is converted to an
    empty header line and a line of underscores, both with as many columns
    as the row has cells, and then the row; with [table_infer_header], and
    usable colspans, the row is followed by the separator line of a head
    row. *)
Theorem convert_tr_headless_first_row
  (o : options) (row : node) (t : string) (a : list (string * string))
  (before after : list node) (up : context) (text : string) (convertAsInline : bool) :
  find isElement before = None ->
  toLowerCase t <> "tbody" ->
  ~ isHeadRow row (mkFrame (PElement t a) before after :: up) ->
  (table_infer_header o = false ->
     convert_tr o row (mkFrame (PElement t a) before after :: up) text convertAsInline
     = Ok ("| " ++ join " | " (List.repeat EmptyString (List.length (cellsOf row)))
           ++ " |" ++ nl
           ++ "| " ++ join " | " (List.repeat "___" (List.length (cellsOf row)))
           ++ " |" ++ nl
           ++ "|" ++ text ++ nl))
  /\ (table_infer_header o = true ->
      (forall cell, In cell (cellsOf row) -> colspanValue cell <> None) ->
      fitsString ("|" ++ text ++ nl
                  ++ separatorLine (Z.to_nat (totalColspan (cellsOf row)))) ->
      convert_tr o row (mkFrame (PElement t a) before after :: up) text convertAsInline
      = Ok ("|" ++ text ++ nl
            ++ separatorLine (Z.to_nat (totalColspan (cellsOf row))))).
Proof.
  intros Hfirst Htag Hhead. rewrite isHeadRow_value in Hhead.
  apply not_true_is_false in Hhead.
  apply String.eqb_neq in Htag.
  split.
  - intros Hinfer. unfold convert_tr. fold (cellsOf row).
    cbn [previousElementSibling Dom.before]. rewrite Hfirst.
    cbn [isSet negb headRowMissing parent].
    rewrite Htag. cbn [negb bind]. rewrite Hhead, Hinfer.
    cbn [andb orb negb bind]. now rewrite !append_assoc.
  - intros Hinfer Hcells Hfits. unfold convert_tr. fold (cellsOf row).
    cbn [previousElementSibling Dom.before]. rewrite Hfirst.
    cbn [isSet negb headRowMissing parent].
    rewrite Htag. cbn [negb bind]. rewrite Hhead, Hinfer. cbn [andb orb].
    rewrite (fullColspan_total _ Hcells 0). cbn [Z.add].
    apply separator_branch_fits; [apply totalColspan_nonneg | exact Hfits].
Qed.

(** The instance of X11 at the only row, of two [td] cells, of a table:
    under the default options, and with [table_infer_header] on. *)
Lemma convert_tr_headless_first_row_witness :
  convert_tr defaults (elem "tr" [elem "td" [Text "1"]; elem "td" [Text "2"]])
    (mkFrame (PElement "table" []) [] [] :: []) " 1 | 2 |" false
  = Ok ("|  |  |" ++ nl ++ "| ___ | ___ |" ++ nl ++ "| 1 | 2 |" ++ nl)
  /\ convert_tr inferringHeader (elem "tr" [elem "td" [Text "1"]; elem "td" [Text "2"]])
       (mkFrame (PElement "table" []) [] [] :: []) " 1 | 2 |" false
     = Ok ("| 1 | 2 |" ++ nl ++ "| --- | --- |" ++ nl).
Proof.
  assert (Hhead : ~ isHeadRow (elem "tr" [elem "td" [Text "1"]; elem "td" [Text "2"]])
                      (mkFrame (PElement "table" []) [] [] :: []))
    by (intros [H | [H _]]; discriminate H).
  split.
  - apply (proj1 (convert_tr_headless_first_row defaults
                    (elem "tr" [elem "td" [Text "1"]; elem "td" [Text "2"]]) "table" [] [] [] []
                    " 1 | 2 |" false eq_refl ltac:(discriminate) Hhead)).
    reflexivity.
  - apply (proj2 (convert_tr_headless_first_row inferringHeader
                    (elem "tr" [elem "td" [Text "1"]; elem "td" [Text "2"]]) "table" [] [] [] []
                    " 1 | 2 |" false eq_refl ltac:(discriminate) Hhead)).
    + reflexivity.
    + intros cell [<- | [<- | []]]; discriminate.
    + apply Z.leb_le. reflexivity.
Defined.

(* ================================================================== *)
(** ** Lines: quotations, list items, definitions *)
(* ================================================================== *)

Lemma split_aux_head (c : ascii) (s cur : string) :
  exists l1 rest, split_aux c cur s = (cur ++ l1) :: rest.
Proof.
  revert cur. induction s as [|d r IH]; intros cur; cbn [split_aux].
  - exists EmptyString, []. now rewrite append_nil_r.
  - destruct (Ascii.eqb d c).
    + exists EmptyString, (split_aux c EmptyString r). now rewrite append_nil_r.
    + destruct (IH (cur ++ String d EmptyString)) as (l1 & rest & ->).
      exists (String d l1), rest. now rewrite append_assoc.
Qed.

Lemma join_cons (sep x : string) (l : list string) :
  join sep (x :: l)
  = x ++ match l with [] => EmptyString | _ :: _ => sep ++ join sep l end.
Proof. destruct l; cbn [join]; [now rewrite append_nil_r | reflexivity]. Qed.

(** On a text without carriage return, the replacement of every line is a
    split at the line feeds, a map and a join. *)
Lemma mapLines_aux_split (f : string -> string) (s cur : string) :
  countChar CR s = 0%nat ->
  mapLines_aux f cur s = join nl (map f (split_aux LF cur s)).
Proof.
  revert cur. induction s as [|c r IH]; intros cur Hcr; [reflexivity|].
  cbn [countChar] in Hcr. cbn [mapLines_aux split_aux]. unfold isLineTerminator.
  destruct (Ascii.eqb c CR) eqn:Ec; [discriminate|]. cbn [orb].
  destruct (Ascii.eqb_spec c LF) as [->|_].
  - cbn [map]. rewrite join_cons, (IH EmptyString Hcr).
    destruct (split_aux_head LF r EmptyString) as (l1 & rest & E). rewrite E.
    reflexivity.
  - now apply IH.
Qed.

Lemma mapLines_split (f : string -> string) (s : string) :
  countChar CR s = 0%nat -> mapLines f s = join nl (map f (split LF s)).
Proof. apply mapLines_aux_split. Qed.

Lemma trim_count (x : ascii) (s : string) :
  (countChar x (trim s) <= countChar x s)%nat.
Proof.
  unfold trim, trimEnd, trimStart.
  etransitivity; [apply stripEnd_count | apply stripStart_count].
Qed.

Lemma stripStart_head (p : ascii -> bool) (s : string) : headIn p (stripStart p s) = false.
Proof.
  induction s as [|c r IH]; [reflexivity|]. cbn [stripStart].
  destruct (p c) eqn:E; [exact IH | exact E].
Qed.

Lemma stripEnd_head (p q : ascii -> bool) (s : string) :
  headIn p s = false -> headIn p (stripEnd q s) = false.
Proof.
  destruct s as [|c r]; [reflexivity|]. cbn [stripEnd].
  destruct (q c && all_in q r); [reflexivity | auto].
Qed.

(** A trimmed text does not start with white space. *)
Lemma trim_head (s : string) : headIn isSpace (trim s) = false.
Proof. unfold trim, trimEnd, trimStart. apply stripEnd_head, stripStart_head. Qed.

(** The first line of a trimmed text that is not empty is not empty. *)
Lemma first_line_of_trimmed (text l1 : string) (rest : list string) :
  trim text <> EmptyString -> split LF (trim text) = l1 :: rest -> truthy l1 = true.
Proof.
  intros Hne Hsplit. pose proof (trim_head text) as Hh.
  destruct (trim text) as [|c r]; [congruence|]. cbn [headIn] in Hh.
  unfold split in Hsplit. cbn [split_aux] in Hsplit.
  destruct (Ascii.eqb_spec c LF) as [->|_]; [discriminate Hh|].
  destruct (split_aux_head LF r (EmptyString ++ String c EmptyString)) as (l & rest' & E).
  rewrite E in Hsplit. injection Hsplit as <- _. reflexivity.
Qed.

Lemma slice_append (a b : string) : slice (String.length a) (a ++ b) = b.
Proof. induction a as [|c a IH]; [destruct b; reflexivity | exact IH]. Qed.

Lemma length_repeat_space (k : nat) : String.length (repeat_string " " k) = k.
Proof. induction k as [|k IH]; [reflexivity | cbn; now rewrite IH]. Qed.

Lemma breaksAtLineFeedOnly_CR (s : string) :
  breaksAtLineFeedOnly s = true -> countChar CR s = 0%nat.
Proof.
  unfold breaksAtLineFeedOnly, noneIn.
  induction s as [|c r IH]; [reflexivity|]. cbn [all_in countChar].
  intros H. apply andb_true_iff in H as [Hc Hr]. rewrite (IH Hr).
  destruct (Ascii.eqb_spec c CR) as [->|_]; [discriminate Hc | reflexivity].
Qed.

(** X12.  A quotation outside inline context, of a text that is not blank
    and holds no line terminator but the line feed: a line feed, the lines of the trimmed text
    each behind a greater-than sign and a space (a sign alone for an empty
    line), and two line feeds. *)
Theorem convert_blockquote_lines
  (o : options) (n : node) (ctx : context) (text : string) :
  trim text <> EmptyString ->
  breaksAtLineFeedOnly text = true ->
  convert_blockquote o n ctx text false
  = nl ++ join nl (map quoteLine (split LF (trim text))) ++ nl ++ nl.
Proof.
  intros Hne Hcr. apply breaksAtLineFeedOnly_CR in Hcr. unfold convert_blockquote.
  destruct (trim text) eqn:E; [congruence|]. rewrite <- E. cbn [truthy negb].
  assert (Hcr' : countChar CR (trim text) = 0%nat)
    by (pose proof (trim_count CR text); lia).
  replace (truthy (trim text)) with true by (rewrite E; reflexivity). cbn [negb].
  now rewrite (mapLines_split _ _ Hcr').
Qed.

(** The instance of X12 at a quotation of two paragraphs. *)
Lemma convert_blockquote_lines_witness :
  convert_blockquote defaults (elem "blockquote" []) [] (nl ++ "a" ++ nl ++ nl ++ "b" ++ nl)
    false
  = nl ++ join nl (map quoteLine (split LF (trim (nl ++ "a" ++ nl ++ nl ++ "b" ++ nl))))
    ++ nl ++ nl.
Proof.
  apply (convert_blockquote_lines defaults (elem "blockquote" []) []
           (nl ++ "a" ++ nl ++ nl ++ "b" ++ nl));
    [discriminate | reflexivity].
Defined.

(** X13.  A list item whose text is not blank and holds no line terminator
    but the line feed:
    the bullet and a space, the first line of the trimmed text, the other
    lines each indented by the width of the bullet and the space (an empty
    line stays empty), and a line feed. *)
Theorem convert_li_lines
  (o : options) (li : node) (ctx : context) (text : string) (convertAsInline : bool)
  (l1 : string) (rest : list string) :
  trim text <> EmptyString ->
  breaksAtLineFeedOnly text = true ->
  split LF (trim text) = l1 :: rest ->
  convert_li o li ctx text convertAsInline
  = liBullet o li ctx ++ " "
    ++ join nl
         (l1 :: map (indentLine
                       (repeat_string " " (String.length (liBullet o li ctx ++ " "))))
                    rest)
    ++ nl.
Proof.
  intros Hne Hcr Hsplit. apply breaksAtLineFeedOnly_CR in Hcr. unfold convert_li.
  assert (Htr : truthy (trim text) = true)
    by (destruct (trim text); [congruence | reflexivity]).
  rewrite Htr. cbn [negb].
  assert (Hcr' : countChar CR (trim text) = 0%nat)
    by (pose proof (trim_count CR text); lia).
  rewrite (mapLines_split _ _ Hcr'), Hsplit. cbn [map].
  rewrite (first_line_of_trimmed text l1 rest Hne Hsplit).
  set (w := String.length (liBullet o li ctx ++ " ")).
  assert (Hs : forall x, slice w (repeat_string " " w ++ x) = x).
  { intros x. rewrite <- (length_repeat_space w) at 1. apply slice_append. }
  rewrite (join_cons nl (repeat_string " " w ++ l1)), (append_assoc _ l1), Hs.
  rewrite (join_cons nl l1). fold (indentLine (repeat_string " " w)).
  now rewrite !append_assoc.
Qed.

(** The instance of X13 at an item that holds a nested list. *)
Lemma convert_li_lines_witness :
  convert_li defaults (elem "li" []) [mkFrame (PElement "ul" []) [] []]
    ("a" ++ nl ++ "+ x" ++ nl) false
  = liBullet defaults (elem "li" []) [mkFrame (PElement "ul" []) [] []] ++ " "
    ++ join nl
         ("a" :: map (indentLine
                        (repeat_string " "
                           (String.length
                              (liBullet defaults (elem "li" [])
                                 [mkFrame (PElement "ul" []) [] []] ++ " "))))
                     ["+ x"])
    ++ nl.
Proof.
  apply (convert_li_lines defaults (elem "li" []) [mkFrame (PElement "ul" []) [] []]
           ("a" ++ nl ++ "+ x" ++ nl) false "a" ["+ x"]);
    [discriminate | reflexivity | reflexivity].
Defined.

(** X14.  A definition outside inline context, of a text that is not blank
    and holds no line terminator but the line feed: a colon and three spaces, the first line of
    the trimmed text, the other lines each indented by four spaces (an empty
    line stays empty), and a line feed. *)
Theorem convert_dd_lines
  (o : options) (n : node) (ctx : context) (text : string)
  (l1 : string) (rest : list string) :
  trim text <> EmptyString ->
  breaksAtLineFeedOnly text = true ->
  split LF (trim text) = l1 :: rest ->
  convert_dd o n ctx text false
  = ":   " ++ join nl (l1 :: map (indentLine "    ") rest) ++ nl.
Proof.
  intros Hne Hcr Hsplit. apply breaksAtLineFeedOnly_CR in Hcr. unfold convert_dd.
  assert (Htr : truthy (trim text) = true)
    by (destruct (trim text); [congruence | reflexivity]).
  rewrite Htr. cbn [negb].
  assert (Hcr' : countChar CR (trim text) = 0%nat)
    by (pose proof (trim_count CR text); lia).
  rewrite (mapLines_split _ _ Hcr'), Hsplit. cbn [map].
  rewrite (first_line_of_trimmed text l1 rest Hne Hsplit).
  rewrite join_cons. cbn [append slice]. rewrite join_cons.
  fold (indentLine "    "). now rewrite !append_assoc.
Qed.

(** The instance of X14 at a definition of two lines. *)
Lemma convert_dd_lines_witness :
  convert_dd defaults (elem "dd" []) [] ("a" ++ nl ++ "b") false
  = ":   " ++ join nl ("a" :: map (indentLine "    ") ["b"]) ++ nl.
Proof.
  apply (convert_dd_lines defaults (elem "dd" []) [] ("a" ++ nl ++ "b") "a" ["b"]);
    [discriminate | reflexivity | reflexivity].
Defined.

(* ================================================================== *)
(** ** Trimmed texts; inline markup; headings *)
(* ================================================================== *)

Lemma lastIn_cons (p : ascii -> bool) (c : ascii) (r : string) :
  r <> EmptyString -> lastIn p (String c r) = lastIn p r.
Proof. destruct r; [congruence | reflexivity]. Qed.

(** What [stripEnd] leaves does not end in the class. *)
Lemma stripEnd_last (p : ascii -> bool) (s : string) : lastIn p (stripEnd p s) = false.
Proof.
  induction s as [|c r IH]; [reflexivity|].
  cbn [stripEnd]. destruct (p c && all_in p r) eqn:E; [reflexivity|].
  destruct (stripEnd p r) eqn:R.
  - apply stripEnd_nil_all in R. rewrite R, andb_true_r in E. exact E.
  - rewrite lastIn_cons by discriminate. exact IH.
Qed.

Lemma all_in_lastIn (p : ascii -> bool) (s : string) :
  all_in p s = true -> s <> EmptyString -> lastIn p s = true.
Proof.
  induction s as [|c r IH]; intros H Hne; [congruence|].
  cbn [all_in] in H. apply andb_true_iff in H as [Hc Hr].
  destruct r as [|d r']; [exact Hc|].
  rewrite lastIn_cons by discriminate. apply IH; [exact Hr | discriminate].
Qed.

(** A text that does not end in the class is left as it is. *)
Lemma stripEnd_fixed (p : ascii -> bool) (s : string) :
  lastIn p s = false -> stripEnd p s = s.
Proof.
  induction s as [|c r IH]; intros H; [reflexivity|].
  cbn [stripEnd]. destruct (p c && all_in p r) eqn:E.
  - apply andb_true_iff in E as [Hc Hr].
    assert (Hall : all_in p (String c r) = true) by (cbn [all_in]; now rewrite Hc, Hr).
    apply all_in_lastIn in Hall; [congruence | discriminate].
  - f_equal. apply IH. destruct r; [reflexivity | exact H].
Qed.

Lemma trim_last (s : string) : lastIn isSpace (trim s) = false.
Proof. unfold trim, trimEnd. apply stripEnd_last. Qed.

Lemma stripStart_nil_all (p : ascii -> bool) (s : string) :
  stripStart p s = EmptyString -> all_in p s = true.
Proof.
  induction s as [|c r IH]; [reflexivity|]. cbn [stripStart all_in].
  destruct (p c); [exact IH | discriminate].
Qed.

Lemma headIn_all (p : ascii -> bool) (s : string) :
  headIn p s = false -> all_in p s = true -> s = EmptyString.
Proof.
  destruct s as [|c r]; [reflexivity|]. cbn [headIn all_in].
  intros ->. discriminate.
Qed.

(** A text is blank exactly when nothing is left of it after trimming. *)
Lemma trim_nil_iff (s : string) : trim s = EmptyString <-> whitespaceOnly s = true.
Proof.
  split; [|apply trim_whitespaceOnly].
  unfold trim, trimEnd, trimStart, whitespaceOnly. intros H.
  apply stripEnd_nil_all in H.
  apply (headIn_all isSpace) in H; [|apply stripStart_head].
  now apply stripStart_nil_all.
Qed.

(** X15.  Outside [pre], [code], [kbd] and [samp], the helper of the
    symmetric markup returns nothing for a blank text, and otherwise puts
    the markup right around the trimmed text, which neither starts nor ends
    with white space; a space at the start or the end of the text goes
    outside the markup, and a markup written as a tag is closed by its
    closing tag. *)
Theorem inline_markup_hugs_content (markup : string) (ctx : context) (text : string) :
  findAncestor ctx codeTags = false ->
  (whitespaceOnly text = true -> abstractInlineConversion markup ctx text = EmptyString)
  /\ (whitespaceOnly text = false ->
      abstractInlineConversion markup ctx text
      = (if startsWith text SP then " " else EmptyString)
        ++ markup ++ trim text
        ++ (if startsWith markup "<" && endsWith markup ">"
            then "</" ++ slice 1 markup else markup)
        ++ (if endsWith text SP then " " else EmptyString)
      /\ trim text <> EmptyString
      /\ headIn isSpace (trim text) = false
      /\ lastIn isSpace (trim text) = false).
Proof.
  intros Hctx. unfold abstractInlineConversion, chomp. rewrite Hctx. split.
  - intros Hws. now rewrite (trim_whitespaceOnly _ Hws).
  - intros Hws.
    assert (Hne : trim text <> EmptyString).
    { intros E. apply trim_nil_iff in E. congruence. }
    assert (Htr : truthy (trim text) = true)
      by (destruct (trim text); [congruence | reflexivity]).
    rewrite Htr. cbn [negb].
    split; [reflexivity|]. split; [exact Hne|].
    split; [apply trim_head | apply trim_last].
Qed.

(** The instance of X15 at the text of a [sub] element written as a tag. *)
Lemma inline_markup_hugs_content_witness :
  (whitespaceOnly " 2 " = true -> abstractInlineConversion "<sub>" [] " 2 " = EmptyString)
  /\ (whitespaceOnly " 2 " = false ->
      abstractInlineConversion "<sub>" [] " 2 "
      = (if startsWith " 2 " SP then " " else EmptyString)
        ++ "<sub>" ++ trim " 2 "
        ++ (if startsWith "<sub>" "<" && endsWith "<sub>" ">"
            then "</" ++ slice 1 "<sub>" else "<sub>")
        ++ (if endsWith " 2 " SP then " " else EmptyString)
      /\ trim " 2 " <> EmptyString
      /\ headIn isSpace (trim " 2 ") = false
      /\ lastIn isSpace (trim " 2 ") = false).
Proof.
  apply (inline_markup_hugs_content "<sub>" [] " 2 "). reflexivity.
Defined.

Lemma length_repeat_char (c : ascii) (k : nat) :
  String.length (repeat_string (String c EmptyString) k) = k.
Proof. induction k as [|k IH]; [reflexivity | cbn; now rewrite IH]. Qed.

(** X16.  An [h1] or [h2] rule under the underlined style, outside inline
    context, for a text that is not blank: between two blank lines, the
    trimmed text and under it a rule of equals signs (for level 1) or
    hyphens (for level 2) that is exactly as long as the trimmed text. *)
Theorem underlined_heading_rule
  (o : options) (n : nat) (h : node) (ctx : context) (text : string) :
  toLowerCase (heading_style o) = UNDERLINED ->
  n = 1%nat \/ n = 2%nat ->
  whitespaceOnly text = false ->
  exists rule,
    _convert_hn o n h ctx text false = nl ++ nl ++ trim text ++ nl ++ rule ++ nl ++ nl
    /\ String.length rule = String.length (trim text)
    /\ all_in (Ascii.eqb (if (n =? 1)%nat then "=" else "-")%char) rule = true.
Proof.
  intros Hstyle Hn Hws. unfold _convert_hn, underline. rewrite Hstyle.
  assert (Hne : trim text <> EmptyString).
  { intros E. apply trim_nil_iff in E. congruence. }
  assert (Hfix : trimEnd (trim text) = trim text)
    by (apply stripEnd_fixed, trim_last).
  assert (Hcase : forall c : ascii,
             all_in (Ascii.eqb c) (repeat_string (String c EmptyString)
                                     (String.length (trim text))) = true).
  { intros c. induction (String.length (trim text)) as [|k IH]; [reflexivity|].
    cbn [repeat_string append all_in]. now rewrite Ascii.eqb_refl. }
  assert (Htr : truthy (trim text) = true)
    by (destruct (trim text); [congruence | reflexivity]).
  change (String.eqb UNDERLINED UNDERLINED) with true.
  destruct Hn as [-> | ->]; cbn [Nat.min Nat.max Nat.leb Nat.eqb andb];
    rewrite Hfix, Htr;
    eexists; (split; [reflexivity|]); (split; [apply length_repeat_char | apply Hcase]).
Qed.

(** The instance of X16 at a title with spaces around it. *)
Lemma underlined_heading_rule_witness :
  exists rule,
    _convert_hn defaults 2 (elem "h2" []) [] "  Two words " false
    = nl ++ nl ++ trim "  Two words " ++ nl ++ rule ++ nl ++ nl
    /\ String.length rule = String.length (trim "  Two words ")
    /\ all_in (Ascii.eqb (if (2 =? 1)%nat then "=" else "-")%char) rule = true.
Proof.
  apply (underlined_heading_rule defaults 2 (elem "h2" []) [] "  Two words ");
    [reflexivity | right; reflexivity | reflexivity].
Defined.

Lemma collapseRuns_class_gone (x : ascii) (p : ascii -> bool) (by_ : string) (s : string) :
  p x = true -> countChar x by_ = 0%nat ->
  forall inRun, countChar x (collapseRuns p by_ inRun s) = 0%nat.
Proof.
  intros Hp Hby. induction s as [|c r IH]; intros inRun; cbn [collapseRuns]; [reflexivity|].
  destruct (p c) eqn:Pc.
  - rewrite countChar_append, IH. destruct inRun; cbn [countChar]; lia.
  - cbn [countChar]. rewrite IH.
    destruct (Ascii.eqb_spec c x) as [->|_]; [congruence | reflexivity].
Qed.

(** X17.  A heading rule that writes hashes (any style but the underlined
    one, or a level from 3 on), outside inline context: between two blank
    lines, one line made of the hashes of the level, a space and the title,
    and under the closed style a space and the hashes again; the title holds
    no line feed, carriage return or tab, whatever the text was. *)
Theorem hash_heading_is_one_line
  (o : options) (n : nat) (h : node) (ctx : context) (text : string) :
  toLowerCase (heading_style o) <> UNDERLINED \/ (3 <= n)%nat ->
  exists title,
    _convert_hn o n h ctx text false
    = nl ++ nl ++ repeat_string "#" (Nat.max 1 (Nat.min 6 n)) ++ " " ++ title
      ++ (if String.eqb (toLowerCase (heading_style o)) ATX_CLOSED
          then " " ++ repeat_string "#" (Nat.max 1 (Nat.min 6 n)) else EmptyString)
      ++ nl ++ nl
    /\ countChar LF title = 0%nat /\ countChar CR title = 0%nat
    /\ countChar TAB title = 0%nat.
Proof.
  intros Hbranch. unfold _convert_hn.
  assert (Hcond : String.eqb (toLowerCase (heading_style o)) UNDERLINED
                  && (Nat.max 1 (Nat.min 6 n) <=? 2)%nat = false).
  { destruct Hbranch as [H | H].
    - apply String.eqb_neq in H. now rewrite H.
    - apply andb_false_iff. right. apply Nat.leb_gt. lia. }
  rewrite Hcond.
  exists (collapseRuns isWs4 " " false (trim text)). split.
  - destruct (String.eqb (toLowerCase (heading_style o)) ATX_CLOSED);
      [now rewrite !append_assoc | reflexivity].
  - repeat split; now apply collapseRuns_class_gone.
Qed.

(** The instance of X17 at an [h3] whose text runs over two lines. *)
Lemma hash_heading_is_one_line_witness :
  exists title,
    _convert_hn defaults 3 (elem "h3" []) [] ("a" ++ nl ++ "b") false
    = nl ++ nl ++ repeat_string "#" (Nat.max 1 (Nat.min 6 3)) ++ " " ++ title
      ++ (if String.eqb (toLowerCase (heading_style defaults)) ATX_CLOSED
          then " " ++ repeat_string "#" (Nat.max 1 (Nat.min 6 3)) else EmptyString)
      ++ nl ++ nl
    /\ countChar LF title = 0%nat /\ countChar CR title = 0%nat
    /\ countChar TAB title = 0%nat.
Proof.
  apply (hash_heading_is_one_line defaults 3 (elem "h3" []) [] ("a" ++ nl ++ "b")).
  right. apply le_n.
Defined.

(* ================================================================== *)
(** ** Text nodes: what is normalised and what is kept *)
(* ================================================================== *)

Lemma insertsOnly_count (c x : ascii) (s t : string) :
  Ascii.eqb c x = false -> insertsOnly c s t -> countChar x t = countChar x s.
Proof.
  intros Hc H. induction H as [| y s t H IH | s t H IH]; cbn [countChar].
  - reflexivity.
  - now rewrite IH.
  - now rewrite Hc, IH.
Qed.

Lemma runHasNewline_CR (r : string) : runHasNewline (String CR r) = true.
Proof. reflexivity. Qed.

Lemma collapseNewlineRuns_no_CR (s : string) :
  forall inMatch, countChar CR (collapseNewlineRuns inMatch s) = 0%nat.
Proof.
  induction s as [|c r IH]; intros inMatch; [reflexivity|].
  cbn [collapseNewlineRuns].
  destruct (Ascii.eqb_spec c CR) as [->|Hc].
  - change (isWs4 CR) with true. cbv iota. rewrite runHasNewline_CR.
    destruct inMatch; cbn [countChar]; now rewrite IH.
  - assert (E : Ascii.eqb c CR = false) by now apply Ascii.eqb_neq.
    destruct (isWs4 c); [destruct inMatch; [|destruct (runHasNewline (String c r))]|];
      cbn [countChar]; rewrite ?E, IH; reflexivity.
Qed.

(** X18.  Outside [pre], the text that [processText] returns holds no tab
    and no carriage return, and with the [wrap] option no line feed
    either, whatever the value of the node and the other options are. *)
Theorem processText_normalises_whitespace
  (o : options) (nodeValue : string) (ctx : context) :
  findAncestor ctx ["pre"] = false ->
  countChar TAB (processText o nodeValue ctx) = 0%nat
  /\ countChar CR (processText o nodeValue ctx) = 0%nat
  /\ (wrap o = true -> countChar LF (processText o nodeValue ctx) = 0%nat).
Proof.
  intros Hpre. unfold processText. rewrite Hpre. cbn [negb].
  set (t1 := if wrap o then _ else _).
  assert (H1 : countChar TAB t1 = 0%nat /\ countChar CR t1 = 0%nat
               /\ (wrap o = true -> countChar LF t1 = 0%nat)).
  { subst t1. destruct (wrap o).
    - repeat split; intros; now apply collapseRuns_class_gone.
    - split; [now apply collapseRuns_class_gone|]. split; [|discriminate].
      pose proof (collapseRuns_count CR isBlank " "
                    (collapseNewlineRuns false nodeValue) eq_refl false) as H.
      rewrite collapseNewlineRuns_no_CR in H. lia. }
  clearbody t1.
  set (t2 := if negb (findAncestor ctx codeTags) then escape o t1 else t1).
  assert (H2 : forall x, Ascii.eqb BSLASH x = false -> countChar x t2 = countChar x t1).
  { intros x Hx. subst t2. destruct (negb _); [|reflexivity].
    apply (insertsOnly_count BSLASH x); [exact Hx | apply escape_inserts]. }
  clearbody t2.
  assert (H3 : forall x,
             (countChar x
                (let text := if shouldRemoveWhitespaceOutside (previousSibling ctx)
                                || shouldRemoveWhitespaceInside (parentTagName ctx)
                                   && negb (isSet (previousSibling ctx))
                             then stripStart isSpace t2 else t2 in
                 if shouldRemoveWhitespaceOutside (nextSibling ctx)
                    || shouldRemoveWhitespaceInside (parentTagName ctx)
                       && negb (isSet (nextSibling ctx))
                 then stripEnd isSpace text else text)
              <= countChar x t2)%nat).
  { intros x. cbv zeta.
    destruct (_ || _); destruct (_ || _);
      try (etransitivity; [apply stripEnd_count|]);
      try apply stripStart_count; lia. }
  cbv zeta in H3. destruct H1 as (Ht & Hc & Hl).
  split; [|split].
  - pose proof (H3 TAB). rewrite (H2 TAB eq_refl) in H. lia.
  - pose proof (H3 CR). rewrite (H2 CR eq_refl) in H. lia.
  - intros Hw. pose proof (H3 LF). rewrite (H2 LF eq_refl), (Hl Hw) in H. lia.
Qed.

(** The instance of X18 at a text with tabs and line breaks in a
    paragraph. *)
Lemma processText_normalises_whitespace_witness :
  countChar TAB
    (processText defaults (String TAB ("a" ++ String CR (nl ++ "b")))
       [mkFrame (PElement "span" []) [] []]) = 0%nat
  /\ countChar CR
       (processText defaults (String TAB ("a" ++ String CR (nl ++ "b")))
          [mkFrame (PElement "span" []) [] []]) = 0%nat
  /\ (wrap defaults = true ->
      countChar LF
        (processText defaults (String TAB ("a" ++ String CR (nl ++ "b")))
           [mkFrame (PElement "span" []) [] []]) = 0%nat).
Proof.
  apply (processText_normalises_whitespace defaults
           (String TAB ("a" ++ String CR (nl ++ "b")))
           [mkFrame (PElement "span" []) [] []]).
  reflexivity.
Defined.

Lemma findAncestor_code_pre (ctx : context) :
  findAncestor ctx ["pre"] = true -> findAncestor ctx codeTags = true.
Proof.
  intros H. destruct (findAncestor ctx codeTags) eqn:E; [reflexivity|].
  apply findAncestor_pre_code in E. congruence.
Qed.

Lemma stripStart_prefix (p : ascii -> bool) (s : string) :
  exists a, s = a ++ stripStart p s /\ all_in p a = true.
Proof.
  induction s as [|c r IH]; [exists EmptyString; split; reflexivity|].
  cbn [stripStart]. destruct (p c) eqn:E.
  - destruct IH as (a & Ha & Hall). exists (String c a). cbn [append all_in].
    rewrite <- Ha, E, Hall. split; reflexivity.
  - exists EmptyString. split; reflexivity.
Qed.

Lemma stripEnd_suffix (p : ascii -> bool) (s : string) :
  exists b, s = stripEnd p s ++ b /\ all_in p b = true.
Proof.
  induction s as [|c r IH]; [exists EmptyString; split; reflexivity|].
  cbn [stripEnd]. destruct (p c && all_in p r) eqn:E.
  - exists (String c r). split; [reflexivity | exact E].
  - destruct IH as (b & Hb & Hall). exists b. cbn [append]. rewrite <- Hb.
    split; [reflexivity | exact Hall].
Qed.

(** X19.  Inside [pre] the value of a text node is kept: [processText]
    returns it without its white space at the start and at the end where
    the node borders on a block, and nothing else is changed, dropped or
    escaped; a node whose parent and neighbours are no blocks is returned as
    it is. *)
Theorem pre_text_is_kept (o : options) (nodeValue : string) (ctx : context) :
  findAncestor ctx ["pre"] = true ->
  (exists a b,
      nodeValue = a ++ processText o nodeValue ctx ++ b
      /\ all_in isSpace a = true /\ all_in isSpace b = true)
  /\ (shouldRemoveWhitespaceInside (parentTagName ctx) = false ->
      shouldRemoveWhitespaceOutside (previousSibling ctx) = false ->
      shouldRemoveWhitespaceOutside (nextSibling ctx) = false ->
      processText o nodeValue ctx = nodeValue).
Proof.
  intros Hpre. unfold processText.
  rewrite Hpre, (findAncestor_code_pre ctx Hpre). cbn [negb]. split.
  - destruct (stripStart_prefix isSpace nodeValue) as (a & Ha & Hall).
    destruct (stripEnd_suffix isSpace (stripStart isSpace nodeValue))
      as (b & Hb & Hallb).
    destruct (stripEnd_suffix isSpace nodeValue) as (b' & Hb' & Hallb').
    destruct (shouldRemoveWhitespaceOutside (previousSibling ctx)
              || shouldRemoveWhitespaceInside (parentTagName ctx)
                 && negb (isSet (previousSibling ctx)));
      destruct (shouldRemoveWhitespaceOutside (nextSibling ctx)
                || shouldRemoveWhitespaceInside (parentTagName ctx)
                   && negb (isSet (nextSibling ctx))).
    + exists a, b. split; [rewrite <- Hb; exact Ha | split; assumption].
    + exists a, EmptyString. rewrite append_nil_r.
      split; [exact Ha | split; [assumption | reflexivity]].
    + exists EmptyString, b'. split; [exact Hb' | split; [reflexivity | assumption]].
    + exists EmptyString, EmptyString. rewrite append_nil_r.
      split; [reflexivity | split; reflexivity].
  - intros -> -> ->. reflexivity.
Qed.

(** The instance of X19 at the text of a [code] element inside a [pre]. *)
Lemma pre_text_is_kept_witness :
  (exists a b,
      "  x_y  *z* " ++ nl
      = a ++ processText defaults ("  x_y  *z* " ++ nl)
               [mkFrame (PElement "code" []) [] []; mkFrame (PElement "pre" []) [] []]
          ++ b
      /\ all_in isSpace a = true /\ all_in isSpace b = true)
  /\ (shouldRemoveWhitespaceInside
        (parentTagName
           [mkFrame (PElement "code" []) [] []; mkFrame (PElement "pre" []) [] []])
      = false ->
      shouldRemoveWhitespaceOutside
        (previousSibling
           [mkFrame (PElement "code" []) [] []; mkFrame (PElement "pre" []) [] []])
      = false ->
      shouldRemoveWhitespaceOutside
        (nextSibling
           [mkFrame (PElement "code" []) [] []; mkFrame (PElement "pre" []) [] []])
      = false ->
      processText defaults ("  x_y  *z* " ++ nl)
        [mkFrame (PElement "code" []) [] []; mkFrame (PElement "pre" []) [] []]
      = "  x_y  *z* " ++ nl).
Proof.
  apply (pre_text_is_kept defaults ("  x_y  *z* " ++ nl)
           [mkFrame (PElement "code" []) [] []; mkFrame (PElement "pre" []) [] []]).
  reflexivity.
Defined.

(* ================================================================== *)
(** ** Tags without rule, paragraphs next to each other, wrapped lines *)
(* ================================================================== *)

(** X20.  An element whose tag is not among those to convert, or has no
    rule and is no heading, is transparent: [processTag] returns the merged
    text of its children as it is. *)
Theorem transparent_element
  (o : options) (t : string) (a : list (string * string)) (cs : list node)
  (ctx : context) (convertAsInline : bool) :
  shouldConvertTag o (lowerTag (Element t a cs)) = Ok false
  \/ (ruleFor (lowerTag (Element t a cs)) = None
      /\ headingLevel (lowerTag (Element t a cs)) = None) ->
  processTag o (Element t a cs) ctx convertAsInline
  = foldChildren o (processTag o) (PElement t a) ctx
      (shouldRemoveWhitespaceInside (Some t))
      (convertChildrenAsInline (lowerTag (Element t a cs)) convertAsInline)
      [] cs EmptyString.
Proof.
  intros H. rewrite processTag_unfold. cbn [asParent tagName childNodes].
  destruct (foldChildren _ _ _ _ _ _ _ _ _) as [text|e]; [|reflexivity].
  cbn [bind]. unfold applyRule.
  destruct H as [-> | [-> ->]]; [|reflexivity].
  destruct (ruleFor _); destruct (headingLevel _); reflexivity.
Qed.

(** The instance of X20 at a link under options that strip links. *)
Lemma transparent_element_witness :
  processTag
    (assign defaults
       (mkOverrides None None None None None None None None None None
                    None None (Some (Tags ["a"])) None None None None None None None))
    (Element "a" [("href", "u")] [Text "t"]) [] false
  = foldChildren
      (assign defaults
         (mkOverrides None None None None None None None None None None
                      None None (Some (Tags ["a"])) None None None None None None None))
      (processTag
         (assign defaults
            (mkOverrides None None None None None None None None None None
                         None None (Some (Tags ["a"])) None None None None None None None)))
      (PElement "a" [("href", "u")]) []
      (shouldRemoveWhitespaceInside (Some "a"))
      (convertChildrenAsInline (lowerTag (Element "a" [("href", "u")] [Text "t"])) false)
      [] [Text "t"] EmptyString.
Proof.
  apply (transparent_element
           (assign defaults
              (mkOverrides None None None None None None None None None None
                           None None (Some (Tags ["a"])) None None None None None None None))
           "a" [("href", "u")] [Text "t"] [] false).
  left. reflexivity.
Defined.

Lemma endsWith_lastIn (s : string) :
  lastIn isSpace s = false -> endsWith s LF = false.
Proof.
  induction s as [|c r IH]; [reflexivity|].
  destruct r as [|d r'].
  - cbn [lastIn endsWith]. intros H.
    destruct (Ascii.eqb_spec c LF) as [->|_]; [discriminate H | reflexivity].
  - rewrite lastIn_cons, endsWith_cons by discriminate. exact IH.
Qed.

Lemma startsWith_headIn (s : string) :
  headIn isSpace s = false -> startsWith s LF = false.
Proof.
  destruct s as [|c r]; [reflexivity|]. cbn [headIn startsWith]. intros H.
  destruct (Ascii.eqb_spec c LF) as [->|_]; [discriminate H | reflexivity].
Qed.

(** The merge of two blocks that are wrapped in blank lines. *)
Lemma merge_blocks (s t : string) :
  s <> EmptyString -> lastIn isSpace s = false ->
  t <> EmptyString -> headIn isSpace t = false ->
  mergeChild (nl ++ nl ++ s ++ nl ++ nl) (nl ++ nl ++ t ++ nl ++ nl)
  = nl ++ nl ++ s ++ nl ++ nl ++ t ++ nl ++ nl.
Proof.
  intros Hs Hls Ht Hht.
  assert (Ha : endsWith (nl ++ nl ++ s) LF = false).
  { rewrite <- append_assoc, endsWith_append by exact Hs. now apply endsWith_lastIn. }
  assert (Hb : startsWith (t ++ nl ++ nl) LF = false).
  { rewrite startsWith_append by exact Ht. now apply startsWith_headIn. }
  pose proof (mergeChild_runs (nl ++ nl ++ s) (t ++ nl ++ nl) 2 2 Ha Hb) as H.
  cbn [repeat_string Nat.max] in H. rewrite append_nil_r in H.
  rewrite ?append_assoc in H. rewrite ?append_assoc. exact H.
Qed.

(** X21.  Two paragraphs, or two [div] elements, next to each other, each
    with a text that is not blank, outside inline context and without the
    [wrap] option: the merge of their conversions holds the two trimmed
    texts with exactly one blank line between them, and a blank line before
    and after. *)
Theorem blocks_are_one_blank_line_apart
  (o : options) (n1 n2 : node) (c1 c2 : context) (t1 t2 : string) :
  wrap o = false ->
  whitespaceOnly t1 = false ->
  whitespaceOnly t2 = false ->
  mergeChild (convert_p o n1 c1 t1 false) (convert_p o n2 c2 t2 false)
  = nl ++ nl ++ trim t1 ++ nl ++ nl ++ trim t2 ++ nl ++ nl
  /\ mergeChild (convert_div o n1 c1 t1 false) (convert_div o n2 c2 t2 false)
     = nl ++ nl ++ trim t1 ++ nl ++ nl ++ trim t2 ++ nl ++ nl.
Proof.
  intros Hwrap H1 H2.
  assert (N1 : trim t1 <> EmptyString) by (intros E; apply trim_nil_iff in E; congruence).
  assert (N2 : trim t2 <> EmptyString) by (intros E; apply trim_nil_iff in E; congruence).
  assert (T1 : truthy (trim t1) = true) by (destruct (trim t1); [congruence | reflexivity]).
  assert (T2 : truthy (trim t2) = true) by (destruct (trim t2); [congruence | reflexivity]).
  unfold convert_p, convert_div. rewrite Hwrap, T1, T2.
  split; apply merge_blocks; auto using trim_last, trim_head.
Qed.

(** The instance of X21 at two paragraphs with spaces around their text. *)
Lemma blocks_are_one_blank_line_apart_witness :
  mergeChild (convert_p defaults (elem "p" []) [] " one " false)
             (convert_p defaults (elem "p" []) [] " two " false)
  = nl ++ nl ++ trim " one " ++ nl ++ nl ++ trim " two " ++ nl ++ nl
  /\ mergeChild (convert_div defaults (elem "p" []) [] " one " false)
                (convert_div defaults (elem "p" []) [] " two " false)
     = nl ++ nl ++ trim " one " ++ nl ++ nl ++ trim " two " ++ nl ++ nl.
Proof.
  apply (blocks_are_one_blank_line_apart defaults (elem "p" []) (elem "p" []) [] []
           " one " " two ");
    reflexivity.
Defined.

Lemma stripEnd_shorter (p : ascii -> bool) (s : string) :
  lastIn p s = true -> (String.length (stripEnd p s) < String.length s)%nat.
Proof.
  induction s as [|c r IH]; [discriminate|].
  cbn [stripEnd]. destruct (p c && all_in p r) eqn:E; [simpl; lia|].
  destruct r as [|d r'].
  - cbn [lastIn all_in]. intros H. rewrite H in E. discriminate E.
  - rewrite lastIn_cons by discriminate. intros H. specialize (IH H).
    cbn [String.length] in *. lia.
Qed.

Lemma lastIn_stripStart (p q : ascii -> bool) (s : string) :
  stripStart p s <> EmptyString -> lastIn q (stripStart p s) = lastIn q s.
Proof.
  induction s as [|c r IH]; [reflexivity|]. cbn [stripStart].
  destruct (p c); [|reflexivity].
  intros H. rewrite (IH H). destruct r; [now cbn in H | reflexivity].
Qed.

(** Trimming a text that ends in white space makes it shorter. *)
Lemma trim_shorter (s : string) :
  lastIn isSpace s = true -> (String.length (trim s) < String.length s)%nat.
Proof.
  intros H. unfold trim, trimEnd, trimStart.
  pose proof (stripStart_length isSpace s) as Hlen.
  destruct (stripStart isSpace s) eqn:E.
  - destruct s; [discriminate H | simpl; lia].
  - rewrite <- E in *.
    assert (Hne : stripStart isSpace s <> EmptyString) by (rewrite E; discriminate).
    pose proof (stripEnd_shorter isSpace _
                  (eq_trans (lastIn_stripStart isSpace isSpace s Hne) H)). lia.
Qed.

Lemma lastIn_append_char (p : ascii -> bool) (s : string) (c : ascii) :
  lastIn p (s ++ String c EmptyString) = p c.
Proof.
  induction s as [|d r IH]; [reflexivity|].
  cbn [append]. rewrite lastIn_cons; [exact IH | destruct r; discriminate].
Qed.

Lemma wordWrap_loop_fits (width : Z) (words : list string) :
  (0 <= width)%Z ->
  (forall w, In w words -> (Z.of_nat (String.length w) <= width)%Z) ->
  forall lines cur,
    (forall l, In l lines -> (Z.of_nat (String.length l) <= width)%Z) ->
    cur = EmptyString
    \/ (lastIn isSpace cur = true /\ (Z.of_nat (String.length cur) <= width + 1)%Z) ->
    forall lines' cur',
      wordWrap_loop width words lines cur = (lines', cur') ->
      (forall l, In l lines' -> (Z.of_nat (String.length l) <= width)%Z)
      /\ (cur' = EmptyString
          \/ (lastIn isSpace cur' = true
              /\ (Z.of_nat (String.length cur') <= width + 1)%Z)).
Proof.
  intros Hw. induction words as [|w rest IH]; intros Hwords lines cur Hlines Hcur lines' cur'.
  - cbn [wordWrap_loop]. intros [= <- <-]. auto.
  - cbn [wordWrap_loop].
    assert (Hlen : (Z.of_nat (String.length w) <= width)%Z) by (apply Hwords; now left).
    assert (Hrest : forall w', In w' rest -> (Z.of_nat (String.length w') <= width)%Z)
      by (intros w' Hin; apply Hwords; now right).
    assert (Hsp : forall s, lastIn isSpace (s ++ " ") = true)
      by (intros s; apply lastIn_append_char).
    destruct (Z.of_nat (String.length (cur ++ w)) >? width)%Z eqn:E.
    + apply (IH Hrest).
      * intros l Hin. apply in_app_or in Hin as [Hin | [<- | []]]; [now apply Hlines|].
        destruct Hcur as [-> | [Hl Hc]]; [simpl; lia|].
        pose proof (trim_shorter cur Hl). lia.
      * right. split; [apply Hsp|]. rewrite length_append. cbn [String.length]. lia.
    + apply (IH Hrest); [exact Hlines|].
      right. rewrite <- append_assoc. split; [apply Hsp|].
      rewrite length_append. cbn [String.length].
      rewrite Z.gtb_ltb, Z.ltb_ge in E. lia.
Qed.

(** X22.  When no word of a text (the pieces between its spaces) is longer
    than the width, [wordWrap] returns lines joined by line feeds of which
    none is longer than the width. *)
Theorem wordWrap_lines_fit (str : string) (width : Z) :
  (forall w, In w (split SP str) -> (Z.of_nat (String.length w) <= width)%Z) ->
  exists lines,
    wordWrap str width = join nl lines
    /\ forall l, In l lines -> (Z.of_nat (String.length l) <= width)%Z.
Proof.
  intros Hwords.
  assert (Hw : (0 <= width)%Z).
  { unfold split in Hwords. destruct (split_aux_head SP str EmptyString) as (l1 & rest & E).
    specialize (Hwords (EmptyString ++ l1)). rewrite E in Hwords.
    specialize (Hwords (or_introl eq_refl)). lia. }
  unfold wordWrap.
  destruct (wordWrap_loop width (split SP str) [] EmptyString) as [lines cur] eqn:E.
  destruct (wordWrap_loop_fits width (split SP str) Hw Hwords [] EmptyString
              (fun l (H : In l []) => match H with end) (or_introl eq_refl)
              lines cur E) as [Hlines Hcur].
  destruct (truthy cur) eqn:T.
  - exists (lines ++ [trim cur])%list. split; [reflexivity|].
    intros l Hin. apply in_app_or in Hin as [Hin | [<- | []]]; [now apply Hlines|].
    destruct Hcur as [-> | [Hl Hc]]; [discriminate T|].
    pose proof (trim_shorter cur Hl). lia.
  - exists lines. split; [reflexivity | exact Hlines].
Qed.

(** The instance of X22 at a sentence wrapped at ten characters. *)
Lemma wordWrap_lines_fit_witness :
  exists lines,
    wordWrap "the quick brown fox jumps" 10 = join nl lines
    /\ forall l, In l lines -> (Z.of_nat (String.length l) <= 10)%Z.
Proof.
  apply (wordWrap_lines_fit "the quick brown fox jumps" 10).
  intros w [<- | [<- | [<- | [<- | [<- | []]]]]]; discriminate.
Defined.
